(** * translategemma-srt: batching, alignment and reconstruction

    A shallow embedding of [main.translate] (src/main.py) and of the two
    document engines [translate_srt] and [translate_plain_text]
    (src/translate_srt.py), with the properties of the batching engine
    proved over it.

    Conventions of the embedding.
    - A Python [str] is a [string]; its characters are the code points
      below 256.
    - The LLM backend ([ollama.chat]) is an oracle over an abstract world
      state: it either yields the content of the reply or raises.
    - The callbacks ([log_callback], [progress_callback]) and the calls made
      to [translate] are recorded, in order, in the environment threaded
      through the engine.
    - File access and [srt.parse] are outside the embedding: an engine
      starts from the parsed subtitles, respectively from the lines that
      [readlines] returned. *)

From Stdlib Require Import Ascii.
From stdpp Require Import base numbers option list strings gmap pretty sorting.

#[local] Set Warnings "-clear-no-such-hyp".

(** ** Python built-ins used by the program *)

Module Py.

Definition nl : ascii := ascii_of_nat 10.

(** The one-character string "\n". *)
Definition NL : string := String nl EmptyString.

(** [str.isspace] on one character: TAB, LF, VT, FF, CR, the separators
    FS, GS, RS and US, SPACE, NEL and NO-BREAK SPACE. *)
Definition isspace (c : ascii) : bool :=
  let n := nat_of_ascii c in
  ((9 <=? n) && (n <=? 13)) || ((28 <=? n) && (n <=? 32))
  || (n =? 133) || (n =? 160).

(** Truth value of a [str]: every string but the empty one. *)
Definition truthy (s : string) : bool :=
  match s with
  | EmptyString => false
  | String _ _ => true
  end.

Fixpoint lstrip (s : string) : string :=
  match s with
  | EmptyString => EmptyString
  | String c t => if isspace c then lstrip t else s
  end.

Fixpoint rstrip (s : string) : string :=
  match s with
  | EmptyString => EmptyString
  | String c t =>
      match rstrip t with
      | EmptyString => if isspace c then EmptyString else String c EmptyString
      | r => String c r
      end
  end.

(** [s.strip()] *)
Definition strip (s : string) : string := lstrip (rstrip s).

(** [s.split(sep)] for a one-character separator: never an empty list. *)
Fixpoint split (sep : ascii) (s : string) : list string :=
  match s with
  | EmptyString => [EmptyString]
  | String c t =>
      if Ascii.eqb c sep then EmptyString :: split sep t
      else match split sep t with
           | h :: r => String c h :: r
           | [] => [String c EmptyString]
           end
  end.

(** [sep.join(l)] *)
Fixpoint join (sep : string) (l : list string) : string :=
  match l with
  | [] => EmptyString
  | [x] => x
  | x :: r => x +:+ sep +:+ join sep r
  end.

(** [needle in hay] for two strings. *)
Fixpoint contains (needle hay : string) : bool :=
  String.prefix needle hay
  || match hay with
     | EmptyString => false
     | String _ t => contains needle t
     end.

(** [any(l)] for a list of strings. *)
Definition any (l : list string) : bool := existsb truthy l.

(** [l[a:b]] for indices that are not negative. *)
Definition slice {A} (l : list A) (a b : nat) : list A :=
  take (b - a) (drop a l).

(** [enumerate(l)] *)
Definition enumerate {A} (l : list A) : list (nat * A) := imap pair l.

Fixpoint range_from (fuel start stop step : nat) : list nat :=
  match fuel with
  | 0 => []
  | S fuel' =>
      if start <? stop
      then start :: range_from fuel' (start + step) stop step
      else []
  end.

(** [range(start, stop, step)] for a step that is not negative: a zero
    step raises [ValueError], rendered as [None]. *)
Definition range (start stop step : nat) : option (list nat) :=
  if step =? 0 then None else Some (range_from stop start stop step).

(** Insertion of [x] into a sorted list, before the first element that is
    not below it. *)
Fixpoint insort {A} (lt : A → A → bool) (x : A) (l : list A) : list A :=
  match l with
  | [] => [x]
  | y :: r => if lt y x then y :: insort lt x r else x :: l
  end.

(** [sorted(l)]: a stable sort that compares elements with [<] alone
    ([lt a b] is [a < b]); elements that do not differ under [<] keep the
    order they have in [l]. *)
Definition sorted {A} (lt : A → A → bool) (l : list A) : list A :=
  foldr (insort lt) [] l.

End Py.

(** ** main.py *)

(** What a [try] block computes: a value, or the exception it raised
    (carried as its [str(e)]). *)
Inductive Exc (A : Type) : Type :=
| Ok (a : A)
| Raise (e : string).
Arguments Ok {A} a.
Arguments Raise {A} e.

Definition bindE {A B} (x : Exc A) (f : A → Exc B) : Exc B :=
  match x with
  | Ok a => f a
  | Raise e => Raise e
  end.

(** The argument [text] of [translate]: a [str] or a [list]. *)
Inductive Text : Type :=
| TStr (s : string)
| TList (l : list string).

(** The value [translate] returns: a [str] or a [list]. *)
Inductive Translated : Type :=
| RStr (s : string)
| RList (l : list string).

Module Main.

Definition code_map : gmap string string :=
  <["English" := "en"]> (
  <["Traditional Chinese" := "zh-Hant"]> (
  <["Simplified Chinese" := "zh-Hans"]> (
  <["Japanese" := "ja"]> (
  <["Korean" := "ko"]> (
  <["French" := "fr"]> (
  <["German" := "de"]> (
  <["Spanish" := "es"]> ∅))))))).

(** [not x] for an optional string argument. *)
Definition falsy (o : option string) : bool :=
  match o with
  | None => true
  | Some s => negb (Py.truthy s)
  end.

Definition batch_directive : string :=
  "The following input contains multiple lines of text. Please translate each line efficiently and maintain the original line breaks in your output. Do not merge lines.".

Definition system_prompt (text : Text) (source_lang target_lang : string)
    (source_code target_code : option string)
    (instruction : option string) : string :=
  let source_code :=
    if falsy source_code then default "unknown" (code_map !! source_lang)
    else default "" source_code in
  let target_code :=
    if falsy target_code then default "unknown" (code_map !! target_lang)
    else default "" target_code in
  let content_to_translate :=
    match text with
    | TList l => Py.join Py.NL l
    | TStr s => s
    end in
  let batch_instruction :=
    match text with
    | TList _ => batch_directive
    | TStr _ => ""
    end in
  let base_persona :=
    "You are a professional " +:+ source_lang +:+ " (" +:+ source_code
    +:+ ") to " +:+ target_lang +:+ " (" +:+ target_code +:+ ") translator." in
  let base_persona :=
    if falsy instruction then base_persona
    else base_persona +:+ " " +:+ default "" instruction in
  base_persona
  +:+ " Your goal is to accurately convey the meaning and nuances of the original "
  +:+ source_lang +:+ " text while adhering to " +:+ target_lang
  +:+ " grammar, vocabulary, and cultural sensitivities. "
  +:+ batch_instruction +:+ " Produce only the " +:+ target_lang
  +:+ " translation, without any additional explanations or commentary. Please translate the following "
  +:+ source_lang +:+ " text into " +:+ target_lang +:+ ":"
  +:+ Py.NL +:+ Py.NL +:+ content_to_translate.

Section Translate.
(** The world the backend lives in. *)
Context {World : Type}.
(** [ollama.chat(model, messages)] followed by
    [response['message']['content']]: the reply's content, or the
    exception raised on the way. *)
Variable chat : string → string → World → Exc string * World.
(** [opencc.OpenCC('s2twp').convert] *)
Variable convert : string → string.

(** Lines 70-73: whitespace-only lines are dropped when the counts
    differ. *)
Definition realign (translated_lines : list string) (text : list string)
    : list string :=
  if negb (length translated_lines =? length text)
  then filter (λ line, Py.truthy (Py.strip line)) translated_lines
  else translated_lines.

(** Lines 64-87, the part of the [try] block after the call. *)
Definition post_process (text : Text) (target_lang : string)
    (reply : string) : Translated :=
  let result := Py.strip reply in
  match text with
  | TList l =>
      let translated_lines := Py.split Py.nl result in
      let translated_lines := realign translated_lines l in
      let translated_lines :=
        if Py.contains "Traditional Chinese" target_lang
        then convert <$> translated_lines
        else translated_lines in
      RList translated_lines
  | TStr _ =>
      let result :=
        if Py.contains "Traditional Chinese" target_lang
        then convert result
        else result in
      RStr result
  end.

(** The [try] block, lines 57-87. *)
Definition try_block (text : Text) (source_lang target_lang : string)
    (source_code target_code : option string) (model : string)
    (instruction : option string) (w : World) : Exc Translated * World :=
  let '(response, w) :=
    chat model
      (system_prompt text source_lang target_lang source_code
         target_code instruction) w in
  (bindE response (λ reply, Ok (post_process text target_lang reply)), w).

(** The error marker of line 90. *)
Definition error_marker (e : string) : string :=
  "Error during translation: " +:+ e.

Definition translate (text : Text) (source_lang target_lang : string)
    (source_code target_code : option string) (model : string)
    (instruction : option string) (w : World) : Translated * World :=
  let '(r, w) :=
    try_block text source_lang target_lang source_code target_code
      model instruction w in
  match r with
  | Ok v => (v, w)
  | Raise e => (RStr (error_marker e), w)
  end.

End Translate.

End Main.

(** ** The srt package *)

(** [srt.Subtitle]: times are [timedelta]s, counted in microseconds. *)
Record Subtitle : Type := mkSubtitle {
  index : option nat;
  start : Z;
  end_ : Z;
  content : string;
  proprietary : string
}.

(** [sub.content = c] *)
Definition set_content (c : string) (sub : Subtitle) : Subtitle :=
  {| index := index sub; start := start sub; end_ := end_ sub;
     content := c; proprietary := proprietary sub |}.

Definition set_index (n : nat) (sub : Subtitle) : Subtitle :=
  {| index := Some n; start := start sub; end_ := end_ sub;
     content := content sub; proprietary := proprietary sub |}.

(** The timing of a unit. *)
Definition timing (sub : Subtitle) : Z * Z := (start sub, end_ sub).

(** Modelled from the spec: the order of the indices in
    [Subtitle.__lt__] of the [srt] package. Between an index and [None]
    Python raises [TypeError]; here [None] comes first. *)
Definition index_lt (a b : option nat) : bool :=
  match a, b with
  | Some m, Some n => m <? n
  | None, Some _ => true
  | _, None => false
  end.

(** Modelled from the spec: [Subtitle.__lt__] of the [srt] package, by
    which [srt.compose] sorts. Subtitles compare as the tuples
    (start, end, index). *)
Definition subtitle_lt (a b : Subtitle) : bool :=
  (start a <? start b)%Z
  || ((start a =? start b)%Z
      && ((end_ a <? end_ b)%Z
          || ((end_ a =? end_ b)%Z && index_lt (index a) (index b)))).

(** Modelled from the spec: [_should_skip_sub] of the [srt] package. A
    subtitle is left out of the output when its content is empty or only
    whitespace, when its start time is negative, or when its start time is
    equal to or later than its end time. *)
Definition should_skip (sub : Subtitle) : bool :=
  negb (Py.truthy (Py.strip (content sub)))
  || (start sub <? 0)%Z
  || (end_ sub <=? start sub)%Z.

(** Modelled from the spec: the loop of [sort_and_reindex] of the [srt]
    package over the sorted subtitles. A subtitle that is skipped takes no
    number, the others are numbered [sub_num - skipped]. *)
Fixpoint reindex (sub_num skipped : nat) (subtitles : list Subtitle)
    : list Subtitle :=
  match subtitles with
  | [] => []
  | sub :: rest =>
      if should_skip sub
      then reindex (S sub_num) (S skipped) rest
      else set_index (sub_num - skipped) sub
           :: reindex (S sub_num) skipped rest
  end.

(** Modelled from the spec:
    [sort_and_reindex(subtitles, start_index=start_index, skip=True)] of
    the [srt] package. *)
Definition sort_and_reindex (subtitles : list Subtitle) (start_index : nat)
    : list Subtitle :=
  reindex start_index 0 (Py.sorted subtitle_lt subtitles).

(** Modelled from the spec: [srt.compose], of the third-party [srt] package,
    is not part of the sources. The description of serialization has it
    follow the standard SRT composition rules, which are the documented ones
    of that function called as on line 114 ([reindex=True],
    [start_index=1]): the subtitles are sorted by start time (then end time,
    then index), those without content or with an unusable time range are
    skipped, and the others are numbered 1, 2, 3, ... in that order and
    rendered one block each. The result is the sequence of subtitles
    rendered, that is, the blocks of the written file in order; the
    rendering of a block as text is not modelled. *)
Definition compose (subtitles : list Subtitle) : list Subtitle :=
  sort_and_reindex subtitles 1.

(** ** translate_srt.py *)

(** What the engine's collaborators observe, in order of occurrence. *)
Record Env {World : Type} : Type := mkEnv {
  world : World;                     (* the backend's world *)
  logged : list string;              (* messages passed to [log] *)
  progress : list (nat * nat);       (* calls of [progress_callback] *)
  requests : list (list string)      (* [text] of each call of [translate] *)
}.
Arguments Env World : clear implicits.
Arguments mkEnv {World} _ _ _ _.

(** Loop state of [translate_srt]. *)
Record SrtLoop {World : Type} : Type := mkSrtLoop {
  new_subs : list Subtitle;
  current_progress : nat;
  env : Env World
}.
Arguments SrtLoop World : clear implicits.
Arguments mkSrtLoop {World} _ _ _.

(** Loop state of [translate_plain_text]. *)
Record TextLoop {World : Type} : Type := mkTextLoop {
  translated_lines_map : gmap nat string;
  text_progress : nat;
  text_env : Env World
}.
Arguments TextLoop World : clear implicits.
Arguments mkTextLoop {World} _ _ _.

Module Engine.
Section Engine.
Context {World : Type}.
(** [translate] of main.py at the call sites of the engine: the list of
    texts is the only argument that varies from call to call. *)
Variable translate : list string → World → Translated * World.
(** Whether a [progress_callback] was passed. *)
Variable progress_callback : bool.

(** [log(msg)]: to [log_callback], or printed. *)
Definition log (msg : string) (e : Env World) : Env World :=
  mkEnv (world e) (logged e ++ [msg]) (progress e) (requests e).

(** [if progress_callback: progress_callback(current, total)] *)
Definition report (current total : nat) (e : Env World) : Env World :=
  if progress_callback
  then mkEnv (world e) (logged e) (progress e ++ [(current, total)])
         (requests e)
  else e.

(** [translate(texts, source_lang, target_lang, model=model,
    instruction=INSTRUCTION)] *)
Definition call_translate (texts : list string) (e : Env World)
    : Translated * Env World :=
  let '(r, w) := translate texts (world e) in
  (r, mkEnv w (logged e) (progress e) (requests e ++ [texts])).

(** Lines 81-87 and 182-187: a [str] result is an error marker, answered
    by the texts of the request, or a single line. *)
Definition resolve (translated : Translated) (texts : list string)
    (e : Env World) : list string * Env World :=
  match translated with
  | RStr s =>
      if Py.contains "Error" s
      then (texts, log ("Batch error: " +:+ s) e)
      else ([s], e)
  | RList l => (l, e)
  end.

(** Lines 90-91 and 190-191:
    [while len(translated) < n: translated.append("")] *)
Definition pad (translated : list string) (n : nat) : list string :=
  translated ++ replicate (n - length translated) "".

(** *** translate_srt, lines 48-114 *)

(** Lines 94-95, for one subtitle of the batch. *)
Definition assign (translated_texts : list string) (idx : nat)
    (sub : Subtitle) : Subtitle :=
  match translated_texts !! idx with
  | Some t => set_content t sub
  | None => sub
  end.

(** Body of the loop of line 62. The [tqdm] bar only wraps the iterator
    and draws on the console. *)
Definition srt_body (subs : list Subtitle) (BATCH_SIZE : nat)
    (st : SrtLoop World) (i : nat) : SrtLoop World :=
  let batch := Py.slice subs i (i + BATCH_SIZE) in
  let texts_to_translate := (λ sub, Py.strip (content sub)) <$> batch in
  if negb (Py.any texts_to_translate) then
    let current_progress := current_progress st + length batch in
    mkSrtLoop (new_subs st ++ batch) current_progress
      (report current_progress (length subs) (env st))
  else
    let '(translated_texts, e) :=
      call_translate texts_to_translate (env st) in
    let '(translated_texts, e) :=
      resolve translated_texts texts_to_translate e in
    let translated_texts := pad translated_texts (length batch) in
    let new_subs := new_subs st ++ imap (assign translated_texts) batch in
    let current_progress := current_progress st + length batch in
    mkSrtLoop new_subs current_progress
      (report current_progress (length subs) e).

Definition srt_loop (subs : list Subtitle) (BATCH_SIZE : nat)
    (iterator : list nat) (e : Env World) : SrtLoop World :=
  foldl (srt_body subs BATCH_SIZE) (mkSrtLoop [] 0 e) iterator.

(** From the parsed subtitles to the blocks written to the output file;
    [None] when [range] raises. *)
Definition translate_srt (subs : list Subtitle) (batch_size : nat)
    (e : Env World) : option (list Subtitle * Env World) :=
  iterator ← Py.range 0 (length subs) batch_size;
  let st := srt_loop subs batch_size iterator e in
  Some (compose (new_subs st), env st).

(** *** translate_plain_text, lines 150-209 *)

(** Lines 153-156. *)
Definition lines_to_process (lines : list string) : list (nat * string) :=
  filter (λ t, Py.truthy (t.2))
    (imap (λ idx line, (idx, Py.strip line)) lines).

(** Lines 194-197. *)
Definition map_back (batch_indices : list nat)
    (translated_results : list string) (m : gmap nat string)
    : gmap nat string :=
  foldl (λ m t,
           match batch_indices !! t.1 with
           | Some original_idx => <[original_idx := t.2]> m
           | None => m
           end)
    m (Py.enumerate translated_results).

(** Body of the loop of line 173. *)
Definition text_body (lines_to_process : list (nat * string))
    (total_items BATCH_SIZE : nat) (st : TextLoop World) (i : nat)
    : TextLoop World :=
  let batch_tuples := Py.slice lines_to_process i (i + BATCH_SIZE) in
  let batch_indices := batch_tuples.*1 in
  let batch_texts := batch_tuples.*2 in
  let '(translated_results, e) :=
    call_translate batch_texts (text_env st) in
  let '(translated_results, e) :=
    resolve translated_results batch_texts e in
  let translated_results := pad translated_results (length batch_texts) in
  let translated_lines_map :=
    map_back batch_indices translated_results (translated_lines_map st) in
  let current_progress := text_progress st + length batch_tuples in
  mkTextLoop translated_lines_map current_progress
    (report current_progress total_items e).

Definition text_loop (lines_to_process : list (nat * string))
    (BATCH_SIZE : nat) (iterator : list nat) (e : Env World)
    : TextLoop World :=
  foldl (text_body lines_to_process (length lines_to_process) BATCH_SIZE)
    (mkTextLoop ∅ 0 e) iterator.

(** Lines 204-209. *)
Definition reconstruct (lines : list string) (m : gmap nat string)
    : list string :=
  imap (λ idx line,
          match m !! idx with
          | Some t => t +:+ Py.NL
          | None => line
          end)
    lines.

(** From the lines read to the lines written; [None] when [range]
    raises. *)
Definition translate_plain_text (lines : list string) (batch_size : nat)
    (e : Env World) : option (list string * Env World) :=
  let lines_to_process := lines_to_process lines in
  iterator ← Py.range 0 (length lines_to_process) batch_size;
  let st := text_loop lines_to_process batch_size iterator e in
  Some (reconstruct lines (translated_lines_map st), text_env st).

(** *** Observations on one iteration, used in the statements *)

(** The texts of a batch, as sent. *)
Definition batch_texts (batch : list Subtitle) : list string :=
  (λ sub, Py.strip (content sub)) <$> batch.

(** What one iteration appends to [new_subs]. *)
Definition srt_appended (subs : list Subtitle) (k : nat) (st : SrtLoop World)
    (i : nat) : list Subtitle :=
  drop (length (new_subs st)) (new_subs (srt_body subs k st i)).

(** The list the engine works with after lines 81-87: the answer of
    [translate], or the texts of the request when it is an error marker. *)
Definition resolved (r : Translated) (texts : list string) : list string :=
  match r with
  | RStr s => if Py.contains "Error" s then texts else [s]
  | RList l => l
  end.

(** The padded results of the batch of [texts], requested in world [w]. *)
Definition batch_results (texts : list string) (w : World) : list string :=
  pad (resolved (translate texts w).1 texts) (length texts).

(** [m[p[0]] = p[1]] *)
Definition insert_pair (m : gmap nat string) (p : nat * string)
    : gmap nat string :=
  <[p.1 := p.2]> m.

End Engine.
End Engine.

(** ** The program: the engines over [translate] of main.py *)

Module Program.
Section Program.
Context {World : Type}.
Variable chat : string → string → World → Exc string * World.
Variable convert : string → string.
Variables (source_lang target_lang model : string).
Variable instruction : option string.
Variable progress_callback : bool.

(** Line 19 of translate_srt.py. *)
Definition SRT_INSTRUCTION : string :=
  if Main.falsy instruction
  then "You are a professional erotica novel translator. Translate with the appropriate tone and nuance, ensuring the context of the scene is conveyed accurately."
  else default "" instruction.

(** Line 148 of translate_srt.py. *)
Definition TEXT_INSTRUCTION : string :=
  if Main.falsy instruction
  then "You are a professional translator."
  else default "" instruction.

Definition translate_with (INSTRUCTION : string) (texts : list string)
    (w : World) : Translated * World :=
  Main.translate chat convert (TList texts) source_lang target_lang
    None None model (Some INSTRUCTION) w.

Definition translate_srt :=
  Engine.translate_srt (translate_with SRT_INSTRUCTION) progress_callback.

Definition translate_plain_text :=
  Engine.translate_plain_text (translate_with TEXT_INSTRUCTION)
    progress_callback.

End Program.
End Program.

(** ** Vocabulary of the statements *)

(** [ceil(n / k)] in integer arithmetic. *)
Definition ceil_div (n k : nat) : nat := (n + k - 1) / k.

(** The engine changed nothing but the text of the unit. *)
Definition only_content (sub sub' : Subtitle) : Prop :=
  sub' = set_content (content sub') sub.

(** Two subtitles in the order the serializer gives them: the second is
    not below the first. *)
Definition in_order (a b : Subtitle) : Prop := subtitle_lt b a = false.


(** What a block shows of a subtitle besides its number. *)
Definition shown (sub : Subtitle) : Z * Z * string * string :=
  (start sub, end_ sub, content sub, proprietary sub).

(** The non-empty units of a subtitle document: those whose text is not
    empty after trimming. *)
Definition non_empty_units (subs : list Subtitle) : list Subtitle :=
  filter (λ sub, Py.truthy (Py.strip (content sub))) subs.

(** The ordered non-empty sub-sequence of a text: the trimmed lines that
    are not empty. *)
Definition non_empty_texts (lines : list string) : list string :=
  filter (λ t, Py.truthy t) (Py.strip <$> lines).

(** The backend answers every request with an error marker. *)
Definition always_error {World : Type}
    (translate : list string → World → Translated * World) : Prop :=
  ∀ texts w, ∃ s, (translate texts w).1 = RStr s ∧ Py.contains "Error" s = true.

(** A unit after a run in which every request failed: its text is the
    trimmed text of the input, or the text of the input itself when that
    is empty after trimming; nothing else changed. *)
Definition degraded (sub sub' : Subtitle) : Prop :=
  only_content sub sub'
  ∧ (content sub' = Py.strip (content sub)
     ∨ (Py.strip (content sub) = "" ∧ content sub' = content sub)).

(** Whether a line ends with a newline. *)
Fixpoint ends_with_newline (s : string) : bool :=
  match s with
  | EmptyString => false
  | String c EmptyString => Ascii.eqb c Py.nl
  | String _ t => ends_with_newline t
  end.

(** ** Backends used in the examples *)

Module Fixtures.

(** A [translate] that plays back a script of answers, and fails once the
    script is exhausted. *)
Definition scripted (texts : list string) (w : list Translated)
    : Translated * list Translated :=
  match w with
  | [] => (RStr "Error during translation: no answer", [])
  | r :: w' => (r, w')
  end.

(** A backend whose replies are played back from a script; it raises once
    the script is exhausted. *)
Definition canned_chat (model prompt : string) (w : list string)
    : Exc string * list string :=
  match w with
  | [] => (Raise "connection refused", [])
  | reply :: w' => (Ok reply, w')
  end.

(** A [translate] that answers every request with an error marker. *)
Definition failing (texts : list string) (w : unit) : Translated * unit :=
  (RStr "Error during translation: connection refused", w).

(** A backend that refuses every call. *)
Definition refusing_chat (model prompt : string) (w : unit)
    : Exc string * unit :=
  (Raise "connection refused", w).

Definition fresh {World} (w : World) : Env World := mkEnv w [] [] [].

(** A subtitle of one second starting at second [n]. *)
Definition cue (n : nat) (c : string) : Subtitle :=
  mkSubtitle (Some n) (Z.of_nat n * 1000000) (Z.of_nat (S n) * 1000000) c "".

End Fixtures.

(** ** translate_srt.py: the functions around the loops *)

(** What reading a file gives: its content, a [UnicodeDecodeError], or any
    other exception (a missing file, a directory, no permission). *)
Inductive ReadResult (A : Type) : Type :=
| ReadOk (a : A)
| DecodeError (e : string)
| ReadFailure (e : string).
Arguments ReadOk {A} a.
Arguments DecodeError {A} e.
Arguments ReadFailure {A} e.

(** What the functions ask of the file system besides reading, in order of
    occurrence: an operation is recorded when it is attempted. *)
Inductive FileOp : Type :=
| Makedirs (path : string)
| WriteSrt (path : string) (blocks : list Subtitle)
| WriteLines (path : string) (lines : list string).

Record FileEnv {World : Type} : Type := mkFileEnv {
  engine_env : Env World;
  file_ops : list FileOp
}.
Arguments FileEnv World : clear implicits.
Arguments mkFileEnv {World} _ _.

Module Files.
Section Files.
Context {World : Type}.
Variable translate : list string → World → Translated * World.
Variable progress_callback : bool.
(** [open(path, "r", encoding=enc)] and [f.read()] *)
Variable read : string → string → World → ReadResult string * World.
(** [open(path, "r", encoding="utf-8")] and [f.readlines()] *)
Variable readlines : string → World → Exc (list string) * World.
(** [list(srt.parse(content))] *)
Variable parse : string → Exc (list Subtitle).
(** [os.path.exists], [os.path.splitext], [os.path.dirname] *)
Variable path_exists : string → World → bool.
Variable splitext : string → string * string.
Variable dirname : string → string.
(** [os.makedirs(path, exist_ok=True)] *)
Variable makedirs : string → World → Exc unit * World.
(** [open(path, "w", encoding="utf-8")] and the write of the document *)
Variable write : string → World → Exc unit * World.

Definition flog (msg : string) (fe : FileEnv World) : FileEnv World :=
  mkFileEnv (Engine.log msg (engine_env fe)) (file_ops fe).

Definition with_world (w : World) (fe : FileEnv World) : FileEnv World :=
  mkFileEnv
    (mkEnv w (logged (engine_env fe)) (progress (engine_env fe))
       (requests (engine_env fe)))
    (file_ops fe).

Definition record_op (op : FileOp) (fe : FileEnv World) : FileEnv World :=
  mkFileEnv (engine_env fe) (file_ops fe ++ [op]).

(** Lines 102-105 and 211-214. *)
Definition default_output_path (file_path : string)
    (output_path : option string) : string :=
  match output_path with
  | None => let '(base_name, ext) := splitext file_path in
            base_name +:+ "_zh" +:+ ext
  | Some p => p
  end.

(** Lines 107-110 and 216-219; an exception leaves through [Raise]. *)
Definition ensure_output_dir (output_path : string) (fe : FileEnv World)
    : Exc unit * FileEnv World :=
  let output_dir := dirname output_path in
  if Py.truthy output_dir
     && negb (path_exists output_dir (world (engine_env fe)))
  then
    let '(r, w) := makedirs output_dir (world (engine_env fe)) in
    (r, with_world w (record_op (Makedirs output_dir) fe))
  else (Ok (), fe).

(** Lines 102-116 and 211-225, from the document to write on. *)
Definition save (file_path : string) (output_path : option string)
    (what : string) (op : string → FileOp) (fe : FileEnv World)
    : Exc unit * FileEnv World :=
  let output_path := default_output_path file_path output_path in
  let '(r, fe) := ensure_output_dir output_path fe in
  match r with
  | Raise e => (Raise e, fe)
  | Ok _ =>
      let fe :=
        flog ("Saving translated " +:+ what +:+ " to " +:+ output_path
              +:+ "...") fe in
      let '(r, w) := write output_path (world (engine_env fe)) in
      let fe := with_world w (record_op (op output_path) fe) in
      match r with
      | Raise e => (Raise e, fe)
      | Ok _ => (Ok (), flog "Done!" fe)
      end
  end.

(** Lines 40-116 of [translate_srt], from the content read on. *)
Definition translate_srt_content (file_path source_lang target_lang : string)
    (batch_size : nat) (output_path : option string) (content : string)
    (fe : FileEnv World) : Exc unit * FileEnv World :=
  match parse content with
  | Raise e => (Ok (), flog ("Error parsing SRT: " +:+ e) fe)
  | Ok subs =>
      let fe :=
        flog ("Translating " +:+ pretty (length subs) +:+ " subtitles from "
              +:+ source_lang +:+ " to " +:+ target_lang +:+ "...") fe in
      match Engine.translate_srt translate progress_callback subs batch_size
              (engine_env fe) with
      | None => (Raise "range() arg 3 must not be zero", fe)
      | Some (blocks, e) =>
          save file_path output_path "SRT" (λ p, WriteSrt p blocks)
            (mkFileEnv e (file_ops fe))
      end
  end.

(** [translate_srt], lines 7-116. *)
Definition translate_srt (file_path source_lang target_lang : string)
    (batch_size : nat) (output_path : option string) (fe : FileEnv World)
    : Exc unit * FileEnv World :=
  let fe := flog ("Reading " +:+ file_path +:+ "...") fe in
  let '(r, w) := read "utf-8" file_path (world (engine_env fe)) in
  let fe := with_world w fe in
  match r with
  | ReadOk content =>
      translate_srt_content file_path source_lang target_lang batch_size
        output_path content fe
  | DecodeError _ =>
      let '(r, w) := read "utf-8-sig" file_path (world (engine_env fe)) in
      let fe := with_world w fe in
      match r with
      | ReadOk content =>
          translate_srt_content file_path source_lang target_lang
            batch_size output_path content fe
      | _ =>
          (Ok (),
           flog ("Error reading file " +:+ file_path +:+ ". Is it UTF-8?") fe)
      end
  | ReadFailure e => (Raise e, fe)
  end.

(** [translate_plain_text], lines 118-225. *)
Definition translate_plain_text (file_path source_lang target_lang : string)
    (batch_size : nat) (output_path : option string) (fe : FileEnv World)
    : Exc unit * FileEnv World :=
  if negb (path_exists file_path (world (engine_env fe))) then
    (Ok (), flog ("Error: File not found: " +:+ file_path) fe)
  else
    let fe := flog ("Reading " +:+ file_path +:+ "...") fe in
    let '(r, w) := readlines file_path (world (engine_env fe)) in
    let fe := with_world w fe in
    match r with
    | Raise e => (Ok (), flog ("Error reading file: " +:+ e) fe)
    | Ok lines =>
        let fe :=
          flog ("Translating " +:+ pretty (length lines) +:+ " lines from "
                +:+ source_lang +:+ " to " +:+ target_lang +:+ "...") fe in
        match Engine.translate_plain_text translate progress_callback lines
                batch_size (engine_env fe) with
        | None => (Raise "range() arg 3 must not be zero", fe)
        | Some (output_lines, e) =>
            save file_path output_path "text"
              (λ p, WriteLines p output_lines) (mkFileEnv e (file_ops fe))
        end
    end.

End Files.
End Files.

(** ** gui.py: the worker that drives the engines *)

Module PyStr.

(** [str.lower] on one character: the letters A-Z and the capital letters
    of Latin-1 (U+00C0-U+00DE without the multiplication sign) move down by
    32. *)
Definition lower_char (c : ascii) : ascii :=
  let n := nat_of_ascii c in
  if ((65 <=? n) && (n <=? 90))
     || ((192 <=? n) && (n <=? 222) && negb (n =? 215))
  then ascii_of_nat (n + 32)
  else c.

(** [s.lower()] *)
Fixpoint lower (s : string) : string :=
  match s with
  | EmptyString => EmptyString
  | String c t => String (lower_char c) (lower t)
  end.

(** [s.endswith(suffix)] *)
Fixpoint endswith (s suffix : string) : bool :=
  String.eqb s suffix
  || match s with
     | EmptyString => false
     | String _ t => endswith t suffix
     end.

End PyStr.

(** The messages of the worker, by the texts they stand for:
    - [NoSuitableFiles ext]: 未找到合適的 {ext} 檔案。
    - [FilesFound n]: 找到 {n} 個檔案。開始翻譯...
    - [OutputDirectory d]: 輸出目錄: {d}
    - [Translating i n name out]: [{i}/{n}] 正在翻譯: {name} -> {out}
    - [ProcessingError name e]: 處理時發生錯誤 {name}: {e}
    - [AllTasksDone]: 所有任務已完成。 *)
Inductive WorkerMessage : Type :=
| NoSuitableFiles (target_ext : string)
| FilesFound (total_files : nat)
| OutputDirectory (output_directory : string)
| Translating (number total_files : nat) (file_name output_name : string)
| ProcessingError (file_name e : string)
| AllTasksDone.

(** The signals of [TranslationWorker] that [run] itself emits. *)
Inductive Signal : Type :=
| progress_total (processed total : nat)
| progress_current_file (current total : nat)
| log_msg (msg : WorkerMessage)
| finished.

(** State of [run]: the world, the signals emitted so far and the calls
    made to the engines so far, as (file_path, output_path). *)
Record WorkerState {World : Type} : Type := mkWorkerState {
  worker_world : World;
  signals : list Signal;
  calls : list (string * string)
}.
Arguments WorkerState World : clear implicits.
Arguments mkWorkerState {World} _ _ _.

Module Worker.
Section Worker.
Context {World : Type}.
(** [os.path.join], [os.path.basename] *)
Variable path_join : string → string → string.
Variable basename : string → string.
(** [self._is_running], as read at the moment of the test. *)
Variable is_running : World → bool.
(** [translate_srt] and [translate_plain_text] as called by the worker,
    with the file and the output path; what they emit through their
    callbacks stays in the world. *)
Variable translate_srt : string → string → World → Exc unit * World.
Variable translate_plain_text : string → string → World → Exc unit * World.
(** The fields set by [__init__]; [file_mode] is already lower-cased. *)
Variables (output_directory file_mode : string).

Definition emit (sig : Signal) (s : WorkerState World) : WorkerState World :=
  mkWorkerState (worker_world s) (signals s ++ [sig]) (calls s).

(** Line 35. *)
Definition target_ext : string :=
  if String.eqb file_mode "srt" then ".srt" else ".txt".

(** Lines 36-44, over what [os.walk] yields. *)
Definition files_to_process
    (walk : list (string * list string * list string)) : list string :=
  entry ← walk;
  file ← entry.2;
  if PyStr.endswith (PyStr.lower file) target_ext
     && negb (Py.contains "_zh" (PyStr.lower file))
  then [path_join entry.1.1 file]
  else [].

(** Lines 54-103: the loop over [enumerate(files_to_process)], from
    position [idx] on. *)
Fixpoint process (total_files idx : nat) (files : list string)
    (s : WorkerState World) : WorkerState World :=
  match files with
  | [] => s
  | file_path :: rest =>
      if negb (is_running (worker_world s)) then s
      else
        let file_name := basename file_path in
        let output_path := path_join output_directory file_name in
        let s :=
          emit (log_msg (Translating (idx + 1) total_files file_name
                           (basename output_path))) s in
        let s := emit (progress_total idx total_files) s in
        let s := emit (progress_current_file 0 100) s in
        let '(r, w) :=
          if String.eqb file_mode "srt"
          then translate_srt file_path output_path (worker_world s)
          else translate_plain_text file_path output_path (worker_world s) in
        let s :=
          mkWorkerState w (signals s)
            (calls s ++ [(file_path, output_path)]) in
        let s :=
          match r with
          | Ok _ => s
          | Raise e =>
              emit (log_msg (ProcessingError (basename file_path) e)) s
          end in
        let s := emit (progress_total (idx + 1) total_files) s in
        process total_files (S idx) rest s
  end.

(** [run], lines 34-107. *)
Definition run (walk : list (string * list string * list string))
    (s : WorkerState World) : WorkerState World :=
  let files_to_process := files_to_process walk in
  let total_files := length files_to_process in
  if total_files =? 0 then
    emit finished (emit (log_msg (NoSuitableFiles target_ext)) s)
  else
    let s := emit (log_msg (FilesFound total_files)) s in
    let s := emit (log_msg (OutputDirectory output_directory)) s in
    let s := process total_files 0 files_to_process s in
    emit finished (emit (log_msg AllTasksDone) s).

End Worker.
End Worker.

(** ** Vocabulary of the further statements *)

(** Whether character [c] occurs in [s]. *)
Fixpoint has_char (c : ascii) (s : string) : bool :=
  match s with
  | EmptyString => false
  | String a t => Ascii.eqb a c || has_char c t
  end.



(** A message of the loop: a batch error built from an answer that carries
    the tag. *)
Definition batch_error (msg : string) : Prop :=
  ∃ s, msg = "Batch error: " +:+ s ∧ Py.contains "Error" s = true.

(** A run that did nothing but log the messages [L]: no request, no
    progress report, no file operation. *)
Definition only_logged {World : Type} (L : list string)
    (fe fe' : FileEnv World) : Prop :=
  logged (engine_env fe') = logged (engine_env fe) ++ L
  ∧ requests (engine_env fe') = requests (engine_env fe)
  ∧ progress (engine_env fe') = progress (engine_env fe)
  ∧ file_ops fe' = file_ops fe.

(** The content [translate_srt] gets to work on, and the world after
    reading: that of the file decoded as UTF-8 or, after a decoding error,
    as UTF-8 with signature. *)
Definition srt_content {World : Type}
    (read : string → string → World → ReadResult string * World)
    (file_path : string) (w : World) : option (string * World) :=
  match read "utf-8" file_path w with
  | (ReadOk content, w1) => Some (content, w1)
  | (DecodeError _, w1) =>
      match read "utf-8-sig" file_path w1 with
      | (ReadOk content, w2) => Some (content, w2)
      | _ => None
      end
  | (ReadFailure _, _) => None
  end.

(** Whether a file operation is a write of the document. *)
Definition is_write (op : FileOp) : bool :=
  match op with
  | Makedirs _ => false
  | WriteSrt _ _ | WriteLines _ _ => true
  end.

(** ** File systems and path functions used in the examples *)

Module FileFixtures.

(** A file that reads as [content] in either encoding. *)
Definition read_ok (content : string) (enc path : string) (w : unit)
    : ReadResult string * unit :=
  (ReadOk content, w).

(** A file that is not there. *)
Definition read_missing (enc path : string) (w : unit)
    : ReadResult string * unit :=
  (ReadFailure "No such file or directory", w).

(** A file that decodes in no encoding. *)
Definition read_binary (enc path : string) (w : unit)
    : ReadResult string * unit :=
  (DecodeError "invalid start byte", w).

Definition readlines_ok (lines : list string) (path : string) (w : unit)
    : Exc (list string) * unit :=
  (Ok lines, w).

Definition readlines_denied (path : string) (w : unit)
    : Exc (list string) * unit :=
  (Raise "Permission denied", w).

(** A stand-in for the parser: an empty content does not parse, any other
    is one subtitle. *)
Definition parse_one (content : string) : Exc (list Subtitle) :=
  if String.eqb content "" then Raise "no subtitles"
  else Ok [Fixtures.cue 0 content].

Definition exists_always (path : string) (w : unit) : bool := true.
Definition exists_never (path : string) (w : unit) : bool := false.

Definition splitext_srt (path : string) : string * string :=
  ("movie", ".srt").

Definition dirname_out (path : string) : string := "out".

Definition succeed (path : string) (w : unit) : Exc unit * unit := (Ok (), w).

Definition fresh (w : unit) : FileEnv unit :=
  mkFileEnv (mkEnv w [] [] []) [].

(** The part of a path after its last slash. *)
Fixpoint basename (p : string) : string :=
  match p with
  | EmptyString => EmptyString
  | String c t =>
      if has_char "/" t then basename t
      else if Ascii.eqb c "/" then t else String c t
  end.

Definition path_join (a b : string) : string := a +:+ "/" +:+ b.

(** Engines of the worker that succeed, respectively raise. *)
Definition engine_ok (file_path output_path : string) (w : unit)
    : Exc unit * unit :=
  (Ok (), w).

Definition engine_raises (file_path output_path : string) (w : unit)
    : Exc unit * unit :=
  (Raise "Permission denied", w).

Definition idle : WorkerState unit := mkWorkerState () [] [].


End FileFixtures.

(** ** Slices and ranges *)

Section Batching.
Context {A : Type}.
Implicit Types (l : list A) (i k n fuel : nat).

Lemma slice_step l i k : Py.slice l i (i + k) = take k (drop i l).
Proof. unfold Py.slice. f_equal. lia. Qed.

Lemma slice_length l i k :
  length (Py.slice l i (i + k)) = min (i + k) (length l) - i.
Proof. rewrite slice_step, length_take, length_drop. lia. Qed.

(** A step slice is the slice up to the end of the data, when it would
    run past it. *)
Lemma slice_clip l i k :
  Py.slice l i (i + k) = Py.slice l i (min (i + k) (length l)).
Proof.
  unfold Py.slice.
  destruct (decide (i + k ≤ length l)) as [Hle|Hgt].
  - by rewrite Nat.min_l.
  - rewrite Nat.min_r by lia.
    rewrite !take_ge; [done | rewrite length_drop; lia ..].
Qed.

(** The slices taken at the indices of a range tile the list. *)
Lemma slices_tile l k fuel i :
  0 < k → length l - i ≤ fuel →
  concat ((λ j, Py.slice l j (j + k))
            <$> Py.range_from fuel i (length l) k) = drop i l.
Proof.
  intros Hk. revert i.
  induction fuel as [|fuel IH]; intros i Hfuel; simpl.
  - symmetry. apply drop_ge. lia.
  - destruct (Nat.ltb_spec i (length l)) as [Hlt|Hge]; simpl.
    + rewrite IH by lia.
      rewrite slice_step, <- drop_drop. apply take_drop.
    + symmetry. by apply drop_ge.
Qed.

Lemma slices_cover l k :
  0 < k →
  concat ((λ j, Py.slice l j (j + k))
            <$> Py.range_from (length l) 0 (length l) k) = l.
Proof. intros Hk. rewrite slices_tile by lia. done. Qed.

End Batching.

Lemma slice_subseteq {A} (l : list A) a b : Py.slice l a b ⊆ l.
Proof. unfold Py.slice. etrans; [apply subseteq_take | apply subseteq_drop]. Qed.

Lemma ceil_div_0 k : 0 < k → ceil_div 0 k = 0.
Proof. intros Hk. unfold ceil_div. apply Nat.div_small. lia. Qed.

Lemma ceil_div_step n k : 0 < k → 0 < n → ceil_div n k = S (ceil_div (n - k) k).
Proof.
  intros Hk Hn. unfold ceil_div.
  destruct (decide (k ≤ n)) as [Hle|Hgt].
  - replace (n + k - 1) with ((n - k + k - 1) + 1 * k) by lia.
    rewrite Nat.div_add by lia. lia.
  - replace (n - k) with 0 by lia.
    rewrite (Nat.div_small (0 + k - 1)) by lia.
    replace (n + k - 1) with ((n - 1) + 1 * k) by lia.
    rewrite Nat.div_add by lia. rewrite Nat.div_small by lia. done.
Qed.

(** The range from [i] holds the multiples of the step shifted by [i]. *)
Lemma range_from_multiples k fuel i n :
  0 < k → n - i ≤ fuel →
  Py.range_from fuel i n k
  = (λ j, i + j * k) <$> seq 0 (ceil_div (n - i) k).
Proof.
  intros Hk. revert i.
  induction fuel as [|fuel IH]; intros i Hfuel; simpl.
  - replace (n - i) with 0 by lia. by rewrite ceil_div_0.
  - destruct (Nat.ltb_spec i n) as [Hlt|Hge].
    + rewrite (ceil_div_step (n - i)) by lia. simpl. f_equal; [lia|].
      rewrite IH by lia.
      replace (n - i - k) with (n - (i + k)) by lia.
      rewrite <- fmap_S_seq, <- list_fmap_compose.
      apply list_fmap_ext. intros ? j _. simpl. lia.
    + replace (n - i) with 0 by lia. by rewrite ceil_div_0.
Qed.

Lemma range_multiples n k :
  0 < k →
  Py.range 0 n k = Some ((λ j, j * k) <$> seq 0 (ceil_div n k)).
Proof.
  intros Hk. unfold Py.range.
  destruct (Nat.eqb_spec k 0) as [->|_]; [lia|].
  rewrite range_from_multiples by lia.
  by rewrite Nat.sub_0_r.
Qed.

Lemma range_length n k iterator :
  0 < k → Py.range 0 n k = Some iterator → length iterator = ceil_div n k.
Proof.
  intros Hk. rewrite range_multiples by done. intros [= <-].
  by rewrite length_fmap, length_seq.
Qed.

(** ** Facts about the serializer *)

Lemma filter_bool_cons {A} (p : A → bool) (x : A) (l : list A) :
  filter (λ y, p y) (x :: l)
  = if p x then x :: filter (λ y, p y) l else filter (λ y, p y) l.
Proof.
  rewrite filter_cons. destruct (p x) eqn:Hp; by case_decide.
Qed.

Lemma insort_perm {A} (lt : A → A → bool) x l : Py.insort lt x l ≡ₚ x :: l.
Proof.
  induction l as [|y l IH]; simpl; [done|].
  destruct (lt y x); [|done]. rewrite IH. apply Permutation_swap.
Qed.

Lemma sorted_perm {A} (lt : A → A → bool) l : Py.sorted lt l ≡ₚ l.
Proof.
  unfold Py.sorted. induction l as [|x l IH]; simpl; [done|].
  by rewrite insort_perm, IH.
Qed.






Lemma reindex_filter n k l :
  k ≤ n →
  reindex n k l
  = imap (λ i, set_index (n - k + i))
      (filter (λ sub, negb (should_skip sub)) l).
Proof.
  revert n k. induction l as [|sub l IH]; intros n k Hk; simpl; [done|].
  rewrite (filter_bool_cons (λ sub, negb (should_skip sub))).
  destruct (should_skip sub); simpl.
  - rewrite IH by lia. apply imap_ext. intros i x _. f_equal; lia.
  - f_equal; [f_equal; lia|]. rewrite IH by lia.
    apply imap_ext. intros i x _. simpl. f_equal; lia.
Qed.

(** The blocks written: the subtitles that are not skipped, in sorted
    order, numbered from 1. *)
Lemma compose_eq subtitles :
  compose subtitles
  = imap (λ i, set_index (S i))
      (filter (λ sub, negb (should_skip sub))
         (Py.sorted subtitle_lt subtitles)).
Proof.
  unfold compose, sort_and_reindex. rewrite reindex_filter by lia.
  apply imap_ext. intros i x _. f_equal; lia.
Qed.

Lemma renumbered_index l :
  index <$> imap (λ i, set_index (S i)) l = Some <$> seq 1 (length l).
Proof.
  apply list_eq. intros i.
  rewrite !list_lookup_fmap, list_lookup_imap.
  destruct (l !! i) as [sub|] eqn:Hi; simpl.
  - apply lookup_lt_Some in Hi.
    rewrite lookup_seq_lt by done. done.
  - apply lookup_ge_None in Hi.
    rewrite lookup_seq_ge by done. done.
Qed.



Lemma compose_index subtitles :
  index <$> compose subtitles
  = Some <$> seq 1 (length (compose subtitles)).
Proof. by rewrite compose_eq, renumbered_index, length_imap. Qed.

Lemma compose_length_le subtitles :
  length (compose subtitles) ≤ length subtitles.
Proof.
  rewrite compose_eq, length_imap.
  etrans; [apply length_filter|]. by rewrite sorted_perm.
Qed.







(** ** Facts about one batch *)

Lemma Forall2_imap_r {A B} (P : A → B → Prop) (f : nat → A → B) (l : list A) :
  (∀ i x, l !! i = Some x → P x (f i x)) → Forall2 P l (imap f l).
Proof.
  intros H. apply Forall2_same_length_lookup. split.
  - by rewrite length_imap.
  - intros i x y Hx. rewrite list_lookup_imap, Hx. intros [= <-]. by apply H.
Qed.

Lemma only_content_refl sub : only_content sub sub.
Proof. by destruct sub. Qed.

Lemma only_content_set c sub : only_content sub (set_content c sub).
Proof. by destruct sub. Qed.





Section EngineFacts.
Context {World : Type}.
Variable translate : list string → World → Translated * World.
Variable progress_callback : bool.

Local Abbreviation srt_body := (Engine.srt_body translate progress_callback).
Local Abbreviation srt_loop := (Engine.srt_loop translate progress_callback).
Local Abbreviation translate_srt := (Engine.translate_srt translate progress_callback).
Local Abbreviation text_body := (Engine.text_body translate progress_callback).
Local Abbreviation text_loop := (Engine.text_loop translate progress_callback).
Local Abbreviation translate_plain_text :=
  (Engine.translate_plain_text translate progress_callback).
Local Abbreviation srt_appended :=
  (Engine.srt_appended translate progress_callback).
Local Abbreviation batch_results := (Engine.batch_results translate).
Local Abbreviation batch_texts := Engine.batch_texts.
Local Abbreviation resolved := Engine.resolved.
Local Abbreviation insert_pair := Engine.insert_pair.

Implicit Types (subs batch : list Subtitle) (e : Env World)
  (st : SrtLoop World) (i k : nat).

Lemma pad_length translated n :
  length (Engine.pad translated n) = max (length translated) n.
Proof. unfold Engine.pad. rewrite length_app, length_replicate. lia. Qed.

Lemma pad_lookup_l translated n j :
  j < length translated →
  Engine.pad translated n !! j = translated !! j.
Proof. intros Hj. unfold Engine.pad. by rewrite lookup_app_l. Qed.

Lemma pad_lookup_r translated n j :
  length translated ≤ j → j < n →
  Engine.pad translated n !! j = Some "".
Proof.
  intros Hj Hn. unfold Engine.pad. rewrite lookup_app_r by done.
  apply lookup_replicate_2. lia.
Qed.

Lemma assign_only_content translated_texts idx sub :
  only_content sub (Engine.assign translated_texts idx sub).
Proof.
  unfold Engine.assign. destruct (translated_texts !! idx).
  - apply only_content_set.
  - apply only_content_refl.
Qed.

Lemma srt_body_new_subs subs k st i :
  new_subs (srt_body subs k st i) = new_subs st ++ srt_appended subs k st i.
Proof.
  unfold Engine.srt_appended, Engine.srt_body.
  destruct (negb _); simpl.
  - by rewrite drop_app_length.
  - destruct (Engine.call_translate _ _ _) as [r e1].
    destruct (Engine.resolve _ _ _) as [ts e2]. simpl.
    by rewrite drop_app_length.
Qed.

Lemma srt_body_only_content subs k st i :
  Forall2 only_content (Py.slice subs i (i + k)) (srt_appended subs k st i).
Proof.
  unfold Engine.srt_appended, Engine.srt_body.
  destruct (negb _); simpl.
  - rewrite drop_app_length.
    apply Forall2_same_length_lookup. split; [done|].
    intros j x y Hx Hy. rewrite Hx in Hy. injection Hy as <-.
    apply only_content_refl.
  - destruct (Engine.call_translate _ _ _) as [r e1].
    destruct (Engine.resolve _ _ _) as [ts e2]. simpl.
    rewrite drop_app_length.
    apply Forall2_imap_r. intros j x _. apply assign_only_content.
Qed.

(** A relation that every iteration establishes between its batch and
    what it appends holds between the input and the output of the loop. *)
Lemma srt_fold_related (R : Subtitle → Subtitle → Prop) subs k :
  (∀ st i, Forall2 R (Py.slice subs i (i + k)) (srt_appended subs k st i)) →
  ∀ iterator st,
    ∃ out,
      new_subs (foldl (srt_body subs k) st iterator) = new_subs st ++ out
      ∧ Forall2 R
          (concat ((λ j, Py.slice subs j (j + k)) <$> iterator)) out.
Proof.
  intros Hstep iterator.
  induction iterator as [|i iterator IH]; intros st; simpl.
  - exists []. split; [by rewrite app_nil_r | constructor].
  - destruct (IH (srt_body subs k st i)) as (out & Hout & HR).
    exists (srt_appended subs k st i ++ out). split.
    + by rewrite Hout, srt_body_new_subs, app_assoc.
    + by apply Forall2_app.
Qed.

Lemma srt_loop_related (R : Subtitle → Subtitle → Prop) subs k e :
  0 < k →
  (∀ st i, Forall2 R (Py.slice subs i (i + k)) (srt_appended subs k st i)) →
  Forall2 R subs
    (new_subs
       (srt_loop subs k (Py.range_from (length subs) 0 (length subs) k) e)).
Proof.
  intros Hk Hstep. unfold Engine.srt_loop.
  destruct (srt_fold_related R subs k Hstep
              (Py.range_from (length subs) 0 (length subs) k)
              (mkSrtLoop [] 0 e)) as (out & -> & HR).
  by rewrite slices_cover in HR.
Qed.

Lemma translate_srt_unfold subs k e :
  0 < k →
  translate_srt subs k e
  = let st :=
      srt_loop subs k (Py.range_from (length subs) 0 (length subs) k) e in
    Some (compose (new_subs st), env st).
Proof.
  intros Hk. unfold Engine.translate_srt, Py.range.
  destruct (Nat.eqb_spec k 0) as [->|_]; [lia|]. done.
Qed.

(** *** What each helper leaves alone in the environment *)

Lemma call_translate_env texts e r e' :
  Engine.call_translate translate texts e = (r, e') →
  r = (translate texts (world e)).1
  ∧ world e' = (translate texts (world e)).2
  ∧ logged e' = logged e
  ∧ progress e' = progress e
  ∧ requests e' = requests e ++ [texts].
Proof.
  unfold Engine.call_translate.
  destruct (translate texts (world e)) as [r0 w]. by intros [= <- <-].
Qed.

Lemma resolve_env r texts e ts e' :
  Engine.resolve r texts e = (ts, e') →
  world e' = world e ∧ progress e' = progress e ∧ requests e' = requests e.
Proof.
  unfold Engine.resolve.
  destruct r as [s|l]; [destruct (Py.contains _ _)|]; by intros [= <- <-].
Qed.

Lemma report_env current total e :
  let e' := Engine.report progress_callback current total e in
  world e' = world e ∧ logged e' = logged e ∧ requests e' = requests e
  ∧ progress e'
    = progress e ++ (if progress_callback then [(current, total)] else []).
Proof.
  unfold Engine.report. destruct progress_callback; simpl.
  - done.
  - by rewrite app_nil_r.
Qed.

(** *** Progress and requests of translate_srt *)

Lemma srt_body_count subs k st i :
  current_progress (srt_body subs k st i)
  = current_progress st + length (Py.slice subs i (i + k)).
Proof.
  unfold Engine.srt_body.
  destruct (negb _); simpl; [done|].
  destruct (Engine.call_translate _ _ _) as [r e1].
  by destruct (Engine.resolve _ _ _) as [ts e2].
Qed.

Lemma srt_body_progress subs k st i :
  progress (env (srt_body subs k st i))
  = progress (env st)
    ++ (if progress_callback
        then [(current_progress st + length (Py.slice subs i (i + k)),
               length subs)]
        else []).
Proof.
  unfold Engine.srt_body.
  destruct (negb _); simpl.
  - apply report_env.
  - destruct (Engine.call_translate _ _ _) as [r e1] eqn:Hcall.
    destruct (Engine.resolve _ _ _) as [ts e2] eqn:Hres. simpl.
    apply call_translate_env in Hcall as (_ & _ & _ & Hp1 & _).
    apply resolve_env in Hres as (_ & Hp2 & _).
    rewrite <- Hp1, <- Hp2. apply report_env.
Qed.

Lemma srt_body_requests subs k st i :
  requests (env (srt_body subs k st i))
  = requests (env st)
    ++ filter (λ texts, Py.any texts) [batch_texts (Py.slice subs i (i + k))].
Proof.
  unfold Engine.srt_body. fold (Engine.batch_texts (Py.slice subs i (i + k))).
  rewrite (filter_bool_cons Py.any), filter_nil.
  destruct (Py.any _) eqn:Hany; simpl.
  - destruct (Engine.call_translate _ _ _) as [r e1] eqn:Hcall.
    destruct (Engine.resolve _ _ _) as [ts e2] eqn:Hres. simpl.
    apply call_translate_env in Hcall as (_ & _ & _ & _ & Hr1).
    apply resolve_env in Hres as (_ & _  & Hr2).
    rewrite <- Hr1, <- Hr2. apply report_env.
  - rewrite app_nil_r. apply report_env.
Qed.

Lemma srt_fold_requests subs k iterator st :
  requests (env (foldl (srt_body subs k) st iterator))
  = requests (env st)
    ++ filter (λ texts, Py.any texts)
         ((λ j, batch_texts (Py.slice subs j (j + k))) <$> iterator).
Proof.
  revert st. induction iterator as [|i iterator IH]; intros st; simpl.
  - by rewrite app_nil_r.
  - rewrite IH, srt_body_requests, !(filter_bool_cons Py.any), filter_nil.
    destruct (Py.any _); simpl; by rewrite <- ?app_assoc, ?app_nil_r.
Qed.

Lemma srt_fold_progress subs k fuel i st :
  0 < k → current_progress st = min i (length subs) →
  let iterator := Py.range_from fuel i (length subs) k in
  progress (env (foldl (srt_body subs k) st iterator))
  = progress (env st)
    ++ (if progress_callback
        then (λ j, (min (j + k) (length subs), length subs)) <$> iterator
        else []).
Proof.
  intros Hk. revert i st.
  induction fuel as [|fuel IH]; intros i st Hst; simpl.
  - destruct progress_callback; by rewrite app_nil_r.
  - destruct (Nat.ltb_spec i (length subs)) as [Hlt|Hge]; simpl.
    + rewrite IH.
      * rewrite srt_body_progress, slice_length, Hst.
        replace (min i (length subs) + (min (i + k) (length subs) - i))
          with (min (i + k) (length subs)) by lia.
        destruct progress_callback; by rewrite <- ?app_assoc, ?app_nil_r.
      * rewrite srt_body_count, slice_length, Hst. lia.
    + destruct progress_callback; by rewrite app_nil_r.
Qed.

(** *** The translatable lines of a text *)

Lemma truthy_nonempty s : Py.truthy s ↔ s ≠ "".
Proof. destruct s; simpl; split; try done. Qed.

Lemma ltp_enumerated lines :
  (imap (λ idx line, (idx, Py.strip line)) lines).*1 = seq 0 (length lines).
Proof.
  apply list_eq. intros i.
  rewrite list_lookup_fmap, list_lookup_imap.
  destruct (lines !! i) as [line|] eqn:Hi; simpl.
  - apply lookup_lt_Some in Hi. by rewrite lookup_seq_lt.
  - apply lookup_ge_None in Hi. by rewrite lookup_seq_ge.
Qed.

Lemma ltp_NoDup lines : NoDup (Engine.lines_to_process lines).*1.
Proof.
  unfold Engine.lines_to_process.
  eapply sublist_NoDup; [apply (NoDup_seq 0 (length lines))|].
  rewrite <- ltp_enumerated. apply fmap_sublist, sublist_filter.
Qed.

Lemma ltp_elem lines idx t :
  (idx, t) ∈ Engine.lines_to_process lines
  ↔ ∃ line, lines !! idx = Some line ∧ t = Py.strip line ∧ t ≠ "".
Proof.
  unfold Engine.lines_to_process.
  rewrite list_elem_of_filter, list_elem_of_lookup, truthy_nonempty. simpl.
  split.
  - intros [Ht [j Hj]]. rewrite list_lookup_imap in Hj.
    destruct (lines !! j) as [line|] eqn:Hl; simplify_eq/=. eauto.
  - intros (line & Hl & -> & Ht). split; [done|].
    exists idx. by rewrite list_lookup_imap, Hl.
Qed.

Lemma ltp_index lines idx :
  idx ∈ (Engine.lines_to_process lines).*1
  ↔ ∃ line, lines !! idx = Some line ∧ Py.strip line ≠ "".
Proof.
  rewrite list_elem_of_fmap. split.
  - intros ([idx' t] & -> & Hin). apply ltp_elem in Hin as (line & ? & -> & ?).
    eauto.
  - intros (line & Hl & Ht). exists (idx, Py.strip line). split; [done|].
    apply ltp_elem. eauto.
Qed.

Lemma ltp_texts_shifted (g : nat → nat) lines :
  (filter (λ t : nat * string, Py.truthy (t.2))
     (imap (λ idx line, (g idx, Py.strip line)) lines)).*2
  = filter (λ t, Py.truthy t) (Py.strip <$> lines).
Proof.
  revert g. induction lines as [|line lines IH]; intros g; [done|].
  simpl. rewrite !filter_cons. simpl.
  case_decide; simpl; f_equal; apply (IH (g ∘ S)).
Qed.

(** The texts of the translatable lines are the non-empty trimmed lines, in
    the order of the document. *)
Lemma ltp_texts lines :
  (Engine.lines_to_process lines).*2
  = filter (λ t, Py.truthy t) (Py.strip <$> lines).
Proof. apply (ltp_texts_shifted id). Qed.

(** *** Writing the results of a batch into the map *)

Lemma map_back_zip_from batch_indices rs n (m : gmap nat string) :
  foldl (λ m t,
           match batch_indices !! t.1 with
           | Some original_idx => <[original_idx := t.2]> m
           | None => m
           end)
    m (imap (λ j x, (n + j, x)) rs)
  = foldl insert_pair m (zip (drop n batch_indices) rs).
Proof.
  revert n m. induction rs as [|x rs IH]; intros n m.
  - by destruct (drop n batch_indices).
  - simpl. rewrite Nat.add_0_r.
    rewrite (imap_ext _ (λ j x, (S n + j, x))) by (intros; f_equal/=; lia).
    rewrite IH.
    destruct (batch_indices !! n) as [oi|] eqn:Hn.
    + by rewrite (drop_S _ _ _ Hn).
    + apply lookup_ge_None in Hn.
      rewrite !drop_ge by lia. done.
Qed.

Lemma map_back_zip batch_indices rs (m : gmap nat string) :
  Engine.map_back batch_indices rs m
  = foldl insert_pair m (zip batch_indices rs).
Proof.
  unfold Engine.map_back, Py.enumerate.
  rewrite (imap_ext _ (λ j x, (0 + j, x))) by done.
  by rewrite map_back_zip_from.
Qed.

Lemma insert_pairs_dom ps (m : gmap nat string) :
  dom (foldl insert_pair m ps) = dom m ∪ list_to_set ps.*1.
Proof.
  revert m. induction ps as [|[x t] ps IH]; intros m; simpl.
  - set_solver.
  - rewrite IH. unfold Engine.insert_pair. rewrite dom_insert_L. set_solver.
Qed.

Lemma insert_pairs_other ps (m : gmap nat string) x :
  x ∉ ps.*1 → foldl insert_pair m ps !! x = m !! x.
Proof.
  revert m. induction ps as [|[y t] ps IH]; intros m Hx; simpl; [done|].
  rewrite IH by set_solver.
  unfold Engine.insert_pair. simpl. apply lookup_insert_ne. set_solver.
Qed.

Lemma insert_pairs_lookup ps (m : gmap nat string) j x t :
  NoDup ps.*1 → ps !! j = Some (x, t) →
  foldl insert_pair m ps !! x = Some t.
Proof.
  revert m j. induction ps as [|[y u] ps IH]; intros m j Hnd Hj; [done|].
  simpl in Hnd. apply NoDup_cons in Hnd as [Hy Hnd].
  destruct j as [|j]; simpl in *.
  - injection Hj as -> ->.
    rewrite insert_pairs_other by done.
    unfold Engine.insert_pair. simpl. apply lookup_insert_eq.
  - by apply (IH _ j).
Qed.

(** Every value in the map was put there together with its key. *)
Lemma insert_pairs_origin ps (m : gmap nat string) x t :
  foldl insert_pair m ps !! x = Some t → (x, t) ∈ ps ∨ m !! x = Some t.
Proof.
  revert m. induction ps as [|[y u] ps IH]; intros m Hx; simpl in *; [by right|].
  apply IH in Hx as [Hin|Hm].
  - left. by right.
  - unfold Engine.insert_pair in Hm. simpl in Hm.
    destruct (decide (y = x)) as [->|Hne].
    + rewrite lookup_insert_eq in Hm. injection Hm as ->. left. by left.
    + rewrite lookup_insert_ne in Hm by done. by right.
Qed.

(** *** The results a batch consumes *)

Lemma resolve_fst r texts e : (Engine.resolve r texts e).1 = resolved r texts.
Proof.
  unfold Engine.resolved, Engine.resolve.
  destruct r as [s|l]; [by destruct (Py.contains _ _)|done].
Qed.

Lemma resolve_logged r texts e :
  logged (Engine.resolve r texts e).2
  = logged e
    ++ match r with
       | RStr s => if Py.contains "Error" s then ["Batch error: " +:+ s] else []
       | RList _ => []
       end.
Proof.
  unfold Engine.resolve.
  destruct r as [s|l]; [destruct (Py.contains _ _)|]; simpl;
    by rewrite ?app_nil_r.
Qed.

Lemma batch_results_length texts w : length texts ≤ length (batch_results texts w).
Proof. unfold Engine.batch_results. rewrite pad_length. lia. Qed.

Lemma srt_appended_eq subs k st i :
  let batch := Py.slice subs i (i + k) in
  srt_appended subs k st i
  = if Py.any (batch_texts batch)
    then imap (Engine.assign
                 (batch_results (batch_texts batch) (world (env st))))
           batch
    else batch.
Proof.
  unfold Engine.srt_appended, Engine.srt_body, batch_results.
  fold (Engine.batch_texts (Py.slice subs i (i + k))). simpl.
  destruct (Py.any _); simpl.
  - destruct (Engine.call_translate _ _ _) as [r e1] eqn:Hcall.
    apply call_translate_env in Hcall as (-> & _).
    pose proof (resolve_fst (translate (batch_texts (Py.slice subs i (i + k)))
                               (world (env st))).1
                  (batch_texts (Py.slice subs i (i + k))) e1) as Hres.
    destruct (Engine.resolve _ _ _) as [ts e2]. simpl in *. subst ts.
    rewrite drop_app_length. unfold Engine.batch_texts. by rewrite length_fmap.
  - by rewrite drop_app_length.
Qed.

(** *** One iteration of translate_plain_text *)

Implicit Types (ltp : list (nat * string)) (tst : TextLoop World).

Lemma text_body_map ltp n k tst i :
  let batch_tuples := Py.slice ltp i (i + k) in
  translated_lines_map (text_body ltp n k tst i)
  = foldl insert_pair (translated_lines_map tst)
      (zip batch_tuples.*1
         (batch_results batch_tuples.*2 (world (text_env tst)))).
Proof.
  unfold Engine.text_body, Engine.batch_results. simpl.
  destruct (Engine.call_translate _ _ _) as [r e1] eqn:Hcall.
  apply call_translate_env in Hcall as (-> & _).
  pose proof (resolve_fst (translate (Py.slice ltp i (i + k)).*2
                             (world (text_env tst))).1
                (Py.slice ltp i (i + k)).*2 e1) as Hres.
  destruct (Engine.resolve _ _ _) as [ts e2]. simpl in *. subst ts.
  apply map_back_zip.
Qed.

Lemma text_body_count ltp n k tst i :
  text_progress (text_body ltp n k tst i)
  = text_progress tst + length (Py.slice ltp i (i + k)).
Proof.
  unfold Engine.text_body.
  destruct (Engine.call_translate _ _ _) as [r e1].
  by destruct (Engine.resolve _ _ _) as [ts e2].
Qed.

Lemma text_body_progress ltp n k tst i :
  progress (text_env (text_body ltp n k tst i))
  = progress (text_env tst)
    ++ (if progress_callback
        then [(text_progress tst + length (Py.slice ltp i (i + k)), n)]
        else []).
Proof.
  unfold Engine.text_body.
  destruct (Engine.call_translate _ _ _) as [r e1] eqn:Hcall.
  destruct (Engine.resolve _ _ _) as [ts e2] eqn:Hres. simpl.
  apply call_translate_env in Hcall as (_ & _ & _ & Hp1 & _).
  apply resolve_env in Hres as (_ & Hp2 & _).
  rewrite <- Hp1, <- Hp2. apply report_env.
Qed.

Lemma text_body_requests ltp n k tst i :
  requests (text_env (text_body ltp n k tst i))
  = requests (text_env tst) ++ [(Py.slice ltp i (i + k)).*2].
Proof.
  unfold Engine.text_body.
  destruct (Engine.call_translate _ _ _) as [r e1] eqn:Hcall.
  destruct (Engine.resolve _ _ _) as [ts e2] eqn:Hres. simpl.
  apply call_translate_env in Hcall as (_ & _ & _ & _ & Hr1).
  apply resolve_env in Hres as (_ & _ & Hr2).
  rewrite <- Hr1, <- Hr2. apply report_env.
Qed.

Lemma text_body_dom ltp n k tst i :
  dom (translated_lines_map (text_body ltp n k tst i))
  = dom (translated_lines_map tst)
    ∪ list_to_set (Py.slice ltp i (i + k)).*1.
Proof.
  rewrite text_body_map, insert_pairs_dom, fst_zip; [done|].
  rewrite length_fmap.
  etrans; [|apply batch_results_length]. by rewrite length_fmap.
Qed.

(** *** The loop of translate_plain_text *)

Lemma text_fold_dom ltp n k iterator tst :
  dom (translated_lines_map (foldl (text_body ltp n k) tst iterator))
  = dom (translated_lines_map tst)
    ∪ list_to_set (concat ((λ j, Py.slice ltp j (j + k)) <$> iterator)).*1.
Proof.
  revert tst. induction iterator as [|i iterator IH]; intros tst; simpl.
  - set_solver.
  - rewrite IH, text_body_dom, fmap_app, list_to_set_app_L. set_solver.
Qed.

Lemma text_fold_requests ltp n k iterator tst :
  requests (text_env (foldl (text_body ltp n k) tst iterator))
  = requests (text_env tst)
    ++ ((λ j, (Py.slice ltp j (j + k)).*2) <$> iterator).
Proof.
  revert tst. induction iterator as [|i iterator IH]; intros tst; simpl.
  - by rewrite app_nil_r.
  - by rewrite IH, text_body_requests, <- app_assoc.
Qed.

Lemma text_fold_progress ltp n k fuel i tst :
  0 < k → text_progress tst = min i (length ltp) →
  let iterator := Py.range_from fuel i (length ltp) k in
  progress (text_env (foldl (text_body ltp n k) tst iterator))
  = progress (text_env tst)
    ++ (if progress_callback
        then (λ j, (min (j + k) (length ltp), n)) <$> iterator
        else []).
Proof.
  intros Hk. revert i tst.
  induction fuel as [|fuel IH]; intros i tst Hst; simpl.
  - destruct progress_callback; by rewrite app_nil_r.
  - destruct (Nat.ltb_spec i (length ltp)) as [Hlt|Hge]; simpl.
    + rewrite IH.
      * rewrite text_body_progress, slice_length, Hst.
        replace (min i (length ltp) + (min (i + k) (length ltp) - i))
          with (min (i + k) (length ltp)) by lia.
        destruct progress_callback; by rewrite <- ?app_assoc, ?app_nil_r.
      * rewrite text_body_count, slice_length, Hst. lia.
    + destruct progress_callback; by rewrite app_nil_r.
Qed.

Lemma translate_plain_text_unfold lines k e :
  0 < k →
  translate_plain_text lines k e
  = let ltp := Engine.lines_to_process lines in
    let tst :=
      text_loop ltp k (Py.range_from (length ltp) 0 (length ltp) k) e in
    Some (Engine.reconstruct lines (translated_lines_map tst), text_env tst).
Proof.
  intros Hk. unfold Engine.translate_plain_text, Py.range.
  destruct (Nat.eqb_spec k 0) as [->|_]; [lia|]. done.
Qed.

(** After the loop, the keys of the map are the translatable lines. *)
Lemma text_loop_dom ltp k e :
  0 < k →
  dom (translated_lines_map
         (text_loop ltp k (Py.range_from (length ltp) 0 (length ltp) k) e))
  = list_to_set ltp.*1.
Proof.
  intros Hk. unfold Engine.text_loop.
  rewrite text_fold_dom, slices_cover by done. simpl. set_solver.
Qed.

Lemma reconstruct_lookup lines (m : gmap nat string) idx :
  Engine.reconstruct lines m !! idx
  = (λ line, match m !! idx with
             | Some t => t +:+ Py.NL
             | None => line
             end) <$> lines !! idx.
Proof. unfold Engine.reconstruct. by rewrite list_lookup_imap. Qed.

(** *** A batch whose request fails *)

Lemma srt_body_logged subs k st i :
  let texts := batch_texts (Py.slice subs i (i + k)) in
  logged (env (srt_body subs k st i))
  = logged (env st)
    ++ (if Py.any texts
        then match (translate texts (world (env st))).1 with
             | RStr s =>
                 if Py.contains "Error" s then ["Batch error: " +:+ s] else []
             | RList _ => []
             end
        else []).
Proof.
  unfold Engine.srt_body.
  fold (Engine.batch_texts (Py.slice subs i (i + k))). simpl.
  destruct (Py.any _); simpl.
  - destruct (Engine.call_translate _ _ _) as [r e1] eqn:Hcall.
    apply call_translate_env in Hcall as (-> & _ & Hl & _).
    pose proof (resolve_logged
                  (translate (batch_texts (Py.slice subs i (i + k)))
                     (world (env st))).1
                  (batch_texts (Py.slice subs i (i + k))) e1) as Hres.
    destruct (Engine.resolve _ _ _) as [ts e2]. simpl in *.
    rewrite <- Hl, <- Hres. apply report_env.
  - rewrite app_nil_r. apply report_env.
Qed.

Lemma text_body_logged ltp n k tst i :
  let texts := (Py.slice ltp i (i + k)).*2 in
  logged (text_env (text_body ltp n k tst i))
  = logged (text_env tst)
    ++ match (translate texts (world (text_env tst))).1 with
       | RStr s =>
           if Py.contains "Error" s then ["Batch error: " +:+ s] else []
       | RList _ => []
       end.
Proof.
  unfold Engine.text_body. simpl.
  destruct (Engine.call_translate _ _ _) as [r e1] eqn:Hcall.
  apply call_translate_env in Hcall as (-> & _ & Hl & _).
  pose proof (resolve_logged
                (translate (Py.slice ltp i (i + k)).*2
                   (world (text_env tst))).1
                (Py.slice ltp i (i + k)).*2 e1) as Hres.
  destruct (Engine.resolve _ _ _) as [ts e2]. simpl in *.
  rewrite <- Hl, <- Hres. apply report_env.
Qed.

Lemma batch_results_marker texts w s :
  (translate texts w).1 = RStr s → Py.contains "Error" s = true →
  batch_results texts w = texts.
Proof.
  intros Hr Hs. unfold Engine.batch_results. rewrite Hr.
  unfold Engine.resolved, Engine.pad. rewrite Hs, Nat.sub_diag. simpl.
  apply app_nil_r.
Qed.

Lemma assign_batch_texts batch :
  content <$> imap (Engine.assign (batch_texts batch)) batch
  = batch_texts batch.
Proof.
  apply list_eq. intros j.
  unfold Engine.batch_texts, Engine.assign.
  rewrite !list_lookup_fmap, list_lookup_imap.
  destruct (batch !! j) as [sub|] eqn:Hj; simpl; [|done].
  rewrite list_lookup_fmap, Hj. done.
Qed.

(** The texts sent by [translate_plain_text] are never empty. *)
Lemma plain_text_requests_non_empty lines k e out e' texts t :
  0 < k → requests e = [] →
  translate_plain_text lines k e = Some (out, e') →
  texts ∈ requests e' → t ∈ texts → t ≠ "".
Proof.
  intros Hk He. rewrite translate_plain_text_unfold by done.
  intros [= <- <-]. unfold Engine.text_loop.
  rewrite text_fold_requests. simpl. rewrite He. simpl.
  intros (j & -> & _)%list_elem_of_fmap Ht.
  apply list_elem_of_fmap in Ht as ([idx t'] & -> & Hin).
  apply slice_subseteq, ltp_elem in Hin as (line & _ & _ & Hne). done.
Qed.

(** ** The properties of the engine *)



(** *** Degraded mode *)

Lemma any_false_lookup (l : list string) j t :
  Py.any l = false → l !! j = Some t → t = "".
Proof.
  unfold Py.any. revert j. induction l as [|x l IH]; intros j; [done|].
  simpl. intros [Hx Hl]%orb_false_iff.
  destruct j as [|j]; simpl.
  - intros [= <-]. by destruct x.
  - by apply IH.
Qed.

Lemma pad_lookup_default rs m j :
  j < m → Engine.pad rs m !! j = Some (default "" (rs !! j)).
Proof.
  intros Hj. destruct (rs !! j) as [t|] eqn:Hrs; simpl.
  - rewrite pad_lookup_l; [done|]. by eapply lookup_lt_Some.
  - apply lookup_ge_None in Hrs. by apply pad_lookup_r.
Qed.

Lemma batch_results_error texts w :
  always_error translate → batch_results texts w = texts.
Proof.
  intros Herr. unfold Engine.batch_results.
  destruct (Herr texts w) as (s & -> & Hs).
  unfold Engine.resolved, Engine.pad. rewrite Hs, Nat.sub_diag. simpl.
  apply app_nil_r.
Qed.

Lemma srt_body_degraded subs k st i :
  always_error translate →
  Forall2 degraded (Py.slice subs i (i + k)) (srt_appended subs k st i).
Proof.
  intros Herr. rewrite srt_appended_eq.
  destruct (Py.any _) eqn:Hany.
  - rewrite batch_results_error by done.
    apply Forall2_imap_r. intros j sub Hj.
    unfold Engine.assign, Engine.batch_texts.
    rewrite list_lookup_fmap, Hj. simpl. split.
    + apply only_content_set.
    + left. by destruct sub.
  - apply Forall2_same_length_lookup. split; [done|].
    intros j sub sub' Hj Hj'. rewrite Hj in Hj'. injection Hj' as <-.
    split; [apply only_content_refl|]. right. split; [|done].
    eapply (any_false_lookup _ j); [exact Hany|].
    unfold Engine.batch_texts. by rewrite list_lookup_fmap, Hj.
Qed.

Lemma text_fold_origin ltp n k iterator tst x t :
  always_error translate →
  translated_lines_map (foldl (text_body ltp n k) tst iterator) !! x = Some t →
  (x, t) ∈ ltp ∨ translated_lines_map tst !! x = Some t.
Proof.
  intros Herr. revert tst.
  induction iterator as [|i iterator IH]; intros tst Hx; simpl in *.
  - by right.
  - apply IH in Hx as [Hin|Hx]; [by left|].
    rewrite text_body_map, batch_results_error, zip_fst_snd in Hx by done.
    apply insert_pairs_origin in Hx as [Hin|Hx]; [left|by right].
    by eapply slice_subseteq.
Qed.

(** Which lines have an entry in the map after the loop. *)
Lemma text_loop_keys lines k e idx line :
  0 < k → lines !! idx = Some line →
  let ltp := Engine.lines_to_process lines in
  let m :=
    translated_lines_map
      (text_loop ltp k (Py.range_from (length ltp) 0 (length ltp) k) e) in
  (Py.strip line = "" → m !! idx = None)
  ∧ (Py.strip line ≠ "" → is_Some (m !! idx)).
Proof.
  intros Hk Hline ltp m.
  pose proof (text_loop_dom ltp k e Hk) as Hdom. fold m in Hdom.
  split; intros Hstrip.
  - apply not_elem_of_dom. rewrite Hdom, elem_of_list_to_set.
    unfold ltp. rewrite ltp_index. intros (line' & Hline' & Hne).
    congruence.
  - apply elem_of_dom. rewrite Hdom, elem_of_list_to_set.
    unfold ltp. rewrite ltp_index. eauto.
Qed.

(** With every request failing, the lines written are the trimmed lines
    ended by a newline, and the untranslatable lines as they were read. *)
Lemma text_loop_degraded lines k e :
  0 < k → always_error translate →
  let ltp := Engine.lines_to_process lines in
  Engine.reconstruct lines
    (translated_lines_map
       (text_loop ltp k (Py.range_from (length ltp) 0 (length ltp) k) e))
  = (λ line, if Py.truthy (Py.strip line)
             then Py.strip line +:+ Py.NL else line) <$> lines.
Proof.
  intros Hk Herr ltp. subst ltp. apply list_eq. intros idx.
  rewrite reconstruct_lookup, list_lookup_fmap.
  destruct (lines !! idx) as [line|] eqn:Hline; simpl; [|done]. f_equal.
  destruct (text_loop_keys lines k e idx line Hk Hline) as [Hempty Hfull].
  destruct (Py.strip line) as [|c t] eqn:Hstrip; simpl.
  - by rewrite Hempty.
  - destruct Hfull as [u Hu]; [done|]. rewrite Hu.
    apply text_fold_origin in Hu as [Hin|Hu]; [|done|done].
    apply ltp_elem in Hin as (line' & Hline' & -> & _).
    rewrite Hline in Hline'. injection Hline' as <-. by rewrite Hstrip.
Qed.

(** With every request answered by the marker [s], each request of the
    loop leaves one line in the log. *)
Lemma srt_fold_down s subs k iterator st :
  (∀ texts w, (translate texts w).1 = RStr s) →
  Py.contains "Error" s = true →
  let st' := foldl (srt_body subs k) st iterator in
  ∃ R : list (list string),
    requests (env st') = requests (env st) ++ R
    ∧ logged (env st')
      = logged (env st) ++ ((λ _, "Batch error: " +:+ s) <$> R).
Proof.
  intros Hdown Hs. revert st.
  induction iterator as [|i iterator IH]; intros st; simpl.
  - exists []. by rewrite !app_nil_r.
  - destruct (IH (srt_body subs k st i)) as (R & -> & ->).
    rewrite srt_body_requests, srt_body_logged.
    rewrite (filter_bool_cons Py.any), filter_nil.
    destruct (Py.any _).
    + rewrite Hdown, Hs. eexists (_ :: R). by rewrite <- !app_assoc.
    + exists R. by rewrite !app_nil_r.
Qed.

Lemma text_fold_down s ltp n k iterator tst :
  (∀ texts w, (translate texts w).1 = RStr s) →
  Py.contains "Error" s = true →
  let tst' := foldl (text_body ltp n k) tst iterator in
  ∃ R : list (list string),
    requests (text_env tst') = requests (text_env tst) ++ R
    ∧ logged (text_env tst')
      = logged (text_env tst) ++ ((λ _, "Batch error: " +:+ s) <$> R).
Proof.
  intros Hdown Hs. revert tst.
  induction iterator as [|i iterator IH]; intros tst; simpl.
  - exists []. by rewrite !app_nil_r.
  - destruct (IH (text_body ltp n k tst i)) as (R & -> & ->).
    rewrite text_body_requests, text_body_logged.
    rewrite Hdown, Hs. eexists (_ :: R). by rewrite <- !app_assoc.
Qed.


(** C8. Reconstruction of a text, as the code has it. For a positive batch
    size and whatever [translate] answers, the output has one entry per
    line of the input; a line that is empty after trimming has no entry in
    the map and is written as it was read, byte for byte (a missing final
    newline included); a line that is not empty after trimming is written
    as the current text of its unit followed by one newline. *)
Theorem C8_plain_text_reconstruction lines k e :
  0 < k →
  ∃ tst,
    let out := Engine.reconstruct lines (translated_lines_map tst) in
    translate_plain_text lines k e = Some (out, text_env tst)
    ∧ length out = length lines
    ∧ ∀ idx line, lines !! idx = Some line →
        (Py.strip line = "" →
         translated_lines_map tst !! idx = None ∧ out !! idx = Some line)
        ∧ (Py.strip line ≠ "" →
           ∃ t, translated_lines_map tst !! idx = Some t
                ∧ out !! idx = Some (t +:+ Py.NL)).
Proof.
  intros Hk. rewrite translate_plain_text_unfold by done.
  eexists. split; [done|]. split; [apply length_imap|].
  intros idx line Hline.
  destruct (text_loop_keys lines k e idx line Hk Hline) as [Hempty Hfull].
  split; intros Hstrip.
  - split; [by apply Hempty|].
    by rewrite reconstruct_lookup, Hline, Hempty.
  - destruct (Hfull Hstrip) as [t Ht]. exists t. split; [done|].
    by rewrite reconstruct_lookup, Hline, Ht.
Qed.

(** *** Batches and their requests *)

Lemma slice_fmap {A B} (f : A → B) (l : list A) a b :
  f <$> Py.slice l a b = Py.slice (f <$> l) a b.
Proof. unfold Py.slice. by rewrite fmap_take, fmap_drop. Qed.

Lemma range_from_0 n k :
  0 < k →
  Py.range_from n 0 n k = (λ j, j * k) <$> seq 0 (ceil_div n k).
Proof.
  intros Hk. rewrite range_from_multiples by lia.
  by rewrite Nat.sub_0_r.
Qed.

(** The step slices at the multiples of the batch size, taken over the
    range of the loop, are the slices [[j*k, min((j+1)*k, n))]. *)
Lemma batches_of_range {A B} (g : list A → B) (l : list A) k :
  0 < k →
  (λ i, g (Py.slice l i (i + k))) <$> Py.range_from (length l) 0 (length l) k
  = (λ j, g (Py.slice l (j * k) (min ((j + 1) * k) (length l))))
    <$> seq 0 (ceil_div (length l) k).
Proof.
  intros Hk. rewrite range_from_0 by done.
  rewrite <- list_fmap_compose. apply list_fmap_ext. intros _ j _. simpl.
  rewrite slice_clip. do 3 f_equal. lia.
Qed.

(** C3. Batch boundaries, as the code has them. For a positive batch size
    k: [translate_plain_text] calls [translate] exactly ceil(n/k) times for
    the n non-empty trimmed lines, call j carrying those at positions
    [[j*k, min((j+1)*k, n))] of their sequence, in document order;
    [translate_srt] cuts the sequence of all N subtitles, empty ones
    included, into the ceil(N/k) slices [[j*k, min((j+1)*k, N))] and calls
    [translate] once, with the trimmed texts of the slice, for each slice
    that holds a text that is not empty. *)
Theorem C3_batch_boundaries subs lines k e :
  0 < k →
  (∃ out e',
     translate_plain_text lines k e = Some (out, e')
     ∧ let texts := non_empty_texts lines in
       let n := length texts in
       requests e'
       = requests e
         ++ ((λ j, Py.slice texts (j * k) (min ((j + 1) * k) n))
             <$> seq 0 (ceil_div n k))
       ∧ length (requests e') = length (requests e) + ceil_div n k)
  ∧ (∃ out e',
       translate_srt subs k e = Some (out, e')
       ∧ let N := length subs in
         requests e'
         = requests e
           ++ filter (λ texts, Py.any texts)
                ((λ j, batch_texts
                         (Py.slice subs (j * k) (min ((j + 1) * k) N)))
                 <$> seq 0 (ceil_div N k))).
Proof.
  intros Hk. split.
  - rewrite translate_plain_text_unfold by done. eexists _, _.
    split; [done|]. simpl.
    assert (requests
              (text_env
                 (text_loop (Engine.lines_to_process lines) k
                    (Py.range_from (length (Engine.lines_to_process lines)) 0
                       (length (Engine.lines_to_process lines)) k) e))
            = requests e
              ++ ((λ j, Py.slice (non_empty_texts lines) (j * k)
                          (min ((j + 1) * k) (length (non_empty_texts lines))))
                  <$> seq 0 (ceil_div (length (non_empty_texts lines)) k)))
      as Hreq.
    { unfold Engine.text_loop. rewrite text_fold_requests. simpl. f_equal.
      rewrite (batches_of_range (λ b, b.*2)) by done.
      unfold non_empty_texts. rewrite <- ltp_texts, length_fmap.
      apply list_fmap_ext. intros _ j _. simpl. apply slice_fmap. }
    split; [done|].
    by rewrite Hreq, length_app, length_fmap, length_seq.
  - rewrite translate_srt_unfold by done. eexists _, _.
    split; [done|]. simpl.
    unfold Engine.srt_loop. rewrite srt_fold_requests. simpl. f_equal.
    by rewrite (batches_of_range Engine.batch_texts).
Qed.

(** C9. Progress reports, as the code has them. For a positive batch size
    k and a progress callback: each engine calls it once per slice of its
    loop, in order, skipped slices included. [translate_plain_text] passes
    (number of non-empty lines processed so far, number n of non-empty
    lines); [translate_srt] passes (number of subtitles processed so far,
    number N of all subtitles), empty subtitles counted in both. *)
Theorem C9_progress_reports subs lines k e :
  0 < k → progress_callback = true →
  (∃ out e',
     translate_plain_text lines k e = Some (out, e')
     ∧ let n := length (non_empty_texts lines) in
       progress e'
       = progress e
         ++ ((λ j, (min ((j + 1) * k) n, n)) <$> seq 0 (ceil_div n k)))
  ∧ (∃ out e',
       translate_srt subs k e = Some (out, e')
       ∧ let N := length subs in
         progress e'
         = progress e
           ++ ((λ j, (min ((j + 1) * k) N, N)) <$> seq 0 (ceil_div N k))).
Proof.
  intros Hk Hcb. split.
  - rewrite translate_plain_text_unfold by done. eexists _, _.
    split; [done|]. simpl.
    unfold Engine.text_loop. rewrite text_fold_progress by done.
    rewrite Hcb. simpl. f_equal.
    unfold non_empty_texts. rewrite <- ltp_texts, length_fmap.
    rewrite range_from_0, <- list_fmap_compose by done.
    apply list_fmap_ext. intros _ j _. simpl. do 2 f_equal. lia.
  - rewrite translate_srt_unfold by done. eexists _, _.
    split; [done|]. simpl.
    unfold Engine.srt_loop. rewrite srt_fold_progress by done.
    rewrite Hcb. simpl. f_equal.
    rewrite range_from_0, <- list_fmap_compose by done.
    apply list_fmap_ext. intros _ j _. simpl. do 2 f_equal. lia.
Qed.

(** C5. Padding and truncation, as the code has them. For a batch of m
    units answered by a list of r results: unit j of the batch (counting
    from 0) receives result j when j < r and the empty string when
    r <= j < m, so that for r < m it is the units r+1..m (counting from 1)
    that receive empty text, and results beyond the m-th are written
    nowhere. In [translate_srt] exactly the m subtitles of the batch are
    appended, otherwise unchanged; in [translate_plain_text] the map
    changes at the lines of the batch only. *)
Theorem C5_pad_and_truncate subs lines n k st tst i rs rs' :
  let batch := Py.slice subs i (i + k) in
  let ltp := Engine.lines_to_process lines in
  let batch_tuples := Py.slice ltp i (i + k) in
  let m' := translated_lines_map (text_body ltp n k tst i) in
  Py.any (batch_texts batch) = true →
  (translate (batch_texts batch) (world (env st))).1 = RList rs →
  (translate batch_tuples.*2 (world (text_env tst))).1 = RList rs' →
  (length (srt_appended subs k st i) = length batch
   ∧ ∀ j sub, batch !! j = Some sub →
       srt_appended subs k st i !! j
       = Some (set_content (default "" (rs !! j)) sub))
  ∧ (∀ j idx, batch_tuples.*1 !! j = Some idx →
       m' !! idx = Some (default "" (rs' !! j)))
  ∧ (∀ idx, idx ∉ batch_tuples.*1 →
       m' !! idx = translated_lines_map tst !! idx).
Proof.
  intros batch ltp batch_tuples m' Hany Hrs Hrs'. split.
  - split.
    { symmetry. eapply Forall2_length, srt_body_only_content. }
    intros j sub Hj.
    rewrite srt_appended_eq. fold batch. rewrite Hany.
    unfold Engine.batch_results. rewrite Hrs. simpl.
    rewrite list_lookup_imap, Hj. simpl. f_equal.
    unfold Engine.assign. rewrite pad_lookup_default; [done|].
    unfold Engine.batch_texts. rewrite length_fmap.
    by eapply lookup_lt_Some.
  - unfold m'. rewrite text_body_map. fold ltp batch_tuples.
    unfold Engine.batch_results. rewrite Hrs'. simpl.
    assert ((zip batch_tuples.*1
               (Engine.pad rs' (length batch_tuples.*2))).*1
            = batch_tuples.*1) as Hfst.
    { apply fst_zip. rewrite pad_length, !length_fmap. lia. }
    split.
    + intros j idx Hj.
      apply (insert_pairs_lookup _ _ j).
      * rewrite Hfst. eapply sublist_NoDup; [apply (ltp_NoDup lines)|].
        apply fmap_sublist. unfold batch_tuples, Py.slice.
        etrans; [apply sublist_take | apply sublist_drop].
      * apply lookup_zip_with_Some. eexists _, _. split; [done|].
        split; [done|]. apply pad_lookup_default.
        rewrite length_fmap, <- (length_fmap fst).
        by eapply lookup_lt_Some.
    + intros idx Hidx. apply insert_pairs_other. by rewrite Hfst.
Qed.

End EngineFacts.


(** C1 at a reply that merges two lines: the three texts of the batch are
    answered by two lines, the engine pads the results with an empty string
    and still hands three subtitles to the serializer, which writes no block
    for the one whose text is now empty. Three blocks were parsed, two are
    written. *)
Theorem C1_padded_unit_gets_no_block :
  let subs :=
    [Fixtures.cue 1 "Hello"; Fixtures.cue 2 "big"; Fixtures.cue 3 "world"] in
  let reply := "Bonjour" +:+ Py.NL +:+ "le monde" in
  ∃ st,
    Program.translate_srt Fixtures.canned_chat id "English" "French"
      "translategemma" None true subs 3 (Fixtures.fresh [reply])
    = Some (compose (new_subs st), env st)
    ∧ requests (env st) = [["Hello"; "big"; "world"]]
    ∧ content <$> new_subs st = ["Bonjour"; "le monde"; ""]
    ∧ length (new_subs st) = length subs
    ∧ content <$> compose (new_subs st) = ["Bonjour"; "le monde"]
    ∧ length (compose (new_subs st)) = 2
    ∧ length (compose (new_subs st)) ≠ length subs.
Proof.
  intros subs reply.
  exists (Engine.srt_loop
            (Program.translate_with Fixtures.canned_chat id "English"
               "French" "translategemma" (Program.SRT_INSTRUCTION None))
            true subs 3 [0] (Fixtures.fresh [reply])).
  split; [reflexivity|]. split; [by vm_compute|]. split; [by vm_compute|].
  split; [by vm_compute|]. split; [by vm_compute|]. split; by vm_compute.
Qed.



(** Subtitles parsed in order and all ending with text: block after block
    carries the timing of unit after unit, under the numbers 1, 2. *)
Example units_in_order_keep_their_place :
  let subs := [Fixtures.cue 3 "Hi"; Fixtures.cue 7 "Yo"] in
  let st :=
    Engine.srt_loop Fixtures.scripted true subs 2 [0]
      (Fixtures.fresh [RList ["A"; "B"]]) in
  Sorted in_order subs
  ∧ Forall (λ sub, should_skip sub = false) (new_subs st)
  ∧ Engine.translate_srt Fixtures.scripted true subs 2
      (Fixtures.fresh [RList ["A"; "B"]])
    = Some (compose (new_subs st), env st)
  ∧ timing <$> compose (new_subs st) = timing <$> subs
  ∧ index <$> compose (new_subs st) = [Some 1; Some 2].
Proof.
  intros subs st. split; [by repeat constructor|].
  split; [by repeat constructor|]. split; [reflexivity|].
  split; by vm_compute.
Qed.

(** ** The properties of [translate] and of the program over it *)

Section ProgramFacts.
Context {World : Type}.
Variable chat : string → string → World → Exc string * World.
Variable convert : string → string.
Variables (source_lang target_lang model : string).
Variable instruction : option string.
Variable progress_callback : bool.

Local Abbreviation srt_translate :=
  (Program.translate_with chat convert source_lang target_lang model
     (Program.SRT_INSTRUCTION instruction)).
Local Abbreviation text_translate :=
  (Program.translate_with chat convert source_lang target_lang model
     (Program.TEXT_INSTRUCTION instruction)).

(** The marker carries the tag the engine looks for. *)
Lemma error_marker_tagged e : Py.contains "Error" (Main.error_marker e) = true.
Proof. reflexivity. Qed.

Lemma translate_raise text sl tl sc tc m instr w err w' :
  chat m (Main.system_prompt text sl tl sc tc instr) w = (Raise err, w') →
  Main.translate chat convert text sl tl sc tc m instr w
  = (RStr (Main.error_marker err), w').
Proof. intros Hchat. unfold Main.translate, Main.try_block. by rewrite Hchat. Qed.

Lemma translate_ok text sl tl sc tc m instr w reply w' :
  chat m (Main.system_prompt text sl tl sc tc instr) w = (Ok reply, w') →
  Main.translate chat convert text sl tl sc tc m instr w
  = (Main.post_process convert text tl reply, w').
Proof. intros Hchat. unfold Main.translate, Main.try_block. by rewrite Hchat. Qed.

(** C10. Realignment in [translate]. For a list request whose backend call
    succeeds, let [lines] be the stripped reply split on newlines. If their
    number differs from the number of requested texts, what is returned is
    [lines] without its whitespace-only lines (each then passed through the
    script converter when the target is Traditional Chinese), so that no
    returned line is whitespace-only as long as conversion keeps a line
    with content one; if the numbers agree, all of [lines] is returned,
    empty lines included. *)
Theorem C10_realign_on_mismatch text sl tl sc tc m instr w reply w' :
  chat m (Main.system_prompt (TList text) sl tl sc tc instr) w
  = (Ok reply, w') →
  let lines := Py.split Py.nl (Py.strip reply) in
  let kept := filter (λ line, Py.truthy (Py.strip line)) lines in
  let conv :=
    if Py.contains "Traditional Chinese" tl then convert else id in
  ∃ returned,
    Main.translate chat convert (TList text) sl tl sc tc m instr w
    = (RList returned, w')
    ∧ (length lines ≠ length text →
       returned = conv <$> kept
       ∧ Forall (λ line, Py.strip line ≠ "") kept
       ∧ ((∀ line, Py.strip line ≠ "" → Py.strip (conv line) ≠ "") →
          Forall (λ line, Py.strip line ≠ "") returned))
    ∧ (length lines = length text → returned = conv <$> lines).
Proof.
  intros Hchat lines kept conv.
  rewrite (translate_ok _ _ _ _ _ _ _ _ _ _ Hchat).
  unfold Main.post_process, Main.realign. fold lines. fold kept.
  assert (∀ l : list string,
            (if Py.contains "Traditional Chinese" tl
             then convert <$> l else l) = conv <$> l) as Hconv.
  { intros l. unfold conv. destruct (Py.contains _ _); [done|].
    by rewrite list_fmap_id. }
  rewrite Hconv. eexists. split; [done|].
  assert (Forall (λ line, Py.strip line ≠ "") kept) as Hkept.
  { apply Forall_forall. intros line [Hline _]%list_elem_of_filter.
    by apply truthy_nonempty. }
  split.
  - intros Hne. apply Nat.eqb_neq in Hne. rewrite Hne. simpl.
    split; [done|]. split; [done|].
    intros Hkeep. apply Forall_fmap.
    eapply Forall_impl; [exact Hkept|]. intros line Hline. by apply Hkeep.
  - intros Heq. apply Nat.eqb_eq in Heq. by rewrite Heq.
Qed.

(** C4. Failure of the backend, as the code has it. When the call to the
    backend raises while a batch is being translated, [translate] returns
    the error marker built from the exception instead of raising; the
    engine logs the marker as a batch error and takes the texts of the
    request, which are the trimmed texts of the batch, as the results of
    the batch: the subtitles of the batch receive their own trimmed texts,
    the lines of the batch are entered in the map with their own trimmed
    texts. Whatever the backend does, both engines run to the end of the
    document. With a backend that raises at every call, the log of a whole
    run gains one batch error per request made, every subtitle handed to
    the serializer carries its trimmed text and every translatable line is
    written trimmed. *)
Theorem C4_backend_failure_falls_back subs lines k n st tst i err w1 w2 :
  let batch := Py.slice subs i (i + k) in
  let texts := Engine.batch_texts batch in
  let ltp := Engine.lines_to_process lines in
  let batch_tuples := Py.slice ltp i (i + k) in
  let marker := Main.error_marker err in
  let srt_run :=
    Program.translate_srt chat convert source_lang target_lang model
      instruction progress_callback in
  let text_run :=
    Program.translate_plain_text chat convert source_lang target_lang model
      instruction progress_callback in
  0 < k →
  Py.any texts = true →
  chat model
    (Main.system_prompt (TList texts) source_lang target_lang None None
       (Some (Program.SRT_INSTRUCTION instruction)))
    (world (env st)) = (Raise err, w1) →
  chat model
    (Main.system_prompt (TList batch_tuples.*2) source_lang target_lang
       None None (Some (Program.TEXT_INSTRUCTION instruction)))
    (world (text_env tst)) = (Raise err, w2) →
  (srt_translate texts (world (env st)) = (RStr marker, w1)
   ∧ text_translate batch_tuples.*2 (world (text_env tst)) = (RStr marker, w2)
   ∧ Py.contains "Error" marker = true)
  ∧ (let st' := Engine.srt_body srt_translate progress_callback subs k st i in
     let appended :=
       Engine.srt_appended srt_translate progress_callback subs k st i in
     new_subs st' = new_subs st ++ appended
     ∧ Forall2 only_content batch appended
     ∧ content <$> appended = (λ sub, Py.strip (content sub)) <$> batch
     ∧ logged (env st') = logged (env st) ++ ["Batch error: " +:+ marker])
  ∧ (let tst' :=
       Engine.text_body text_translate progress_callback ltp n k tst i in
     translated_lines_map tst'
     = foldl Engine.insert_pair (translated_lines_map tst) batch_tuples
     ∧ logged (text_env tst')
       = logged (text_env tst) ++ ["Batch error: " +:+ marker])
  ∧ (∀ e, ∃ st',
       srt_run subs k e = Some (compose (new_subs st'), env st')
       ∧ Forall2 only_content subs (new_subs st'))
  ∧ (∀ e, ∃ out e',
       text_run lines k e = Some (out, e') ∧ length out = length lines)
  ∧ ((∀ prompt w, (chat model prompt w).1 = Raise err) →
     (∀ e, ∃ st' R,
        srt_run subs k e = Some (compose (new_subs st'), env st')
        ∧ Forall2 degraded subs (new_subs st')
        ∧ requests (env st') = requests e ++ R
        ∧ logged (env st')
          = logged e ++ ((λ _, "Batch error: " +:+ marker) <$> R))
     ∧ (∀ e, ∃ e' R,
          text_run lines k e
          = Some ((λ line, if Py.truthy (Py.strip line)
                           then Py.strip line +:+ Py.NL else line) <$> lines,
                  e')
          ∧ requests e' = requests e ++ R
          ∧ logged e'
            = logged e ++ ((λ _, "Batch error: " +:+ marker) <$> R))).
Proof.
  intros batch texts ltp batch_tuples marker srt_run text_run
    Hk Hany Hsrt Htext.
  assert (srt_translate texts (world (env st)) = (RStr marker, w1)) as Hs.
  { unfold Program.translate_with. by apply translate_raise. }
  assert (text_translate batch_tuples.*2 (world (text_env tst))
          = (RStr marker, w2)) as Ht.
  { unfold Program.translate_with. by apply translate_raise. }
  split; [done|]. split; [|split; [|split; [|split]]].
  - simpl. split; [apply srt_body_new_subs|].
    split; [apply srt_body_only_content|]. split.
    + rewrite srt_appended_eq. fold batch texts. rewrite Hany.
      rewrite (batch_results_marker _ _ _ marker) by (by rewrite ?Hs).
      apply assign_batch_texts.
    + rewrite srt_body_logged. fold batch texts. by rewrite Hany, Hs.
  - simpl. split.
    + rewrite text_body_map. fold batch_tuples.
      rewrite (batch_results_marker _ _ _ marker) by (by rewrite ?Ht).
      by rewrite zip_fst_snd.
    + rewrite text_body_logged. fold batch_tuples. by rewrite Ht.
  - intros e. unfold srt_run, Program.translate_srt.
    rewrite translate_srt_unfold by done. eexists. split; [done|].
    apply srt_loop_related; [done|]. apply srt_body_only_content.
  - intros e. unfold text_run, Program.translate_plain_text.
    rewrite translate_plain_text_unfold by done. eexists _, _.
    split; [done|]. apply length_imap.
  - intros Hdown.
    assert (∀ INSTRUCTION texts0 w,
              (Program.translate_with chat convert source_lang target_lang
                 model INSTRUCTION texts0 w).1 = RStr marker) as Hmarker.
    { intros INSTRUCTION texts0 w.
      unfold Program.translate_with, Main.translate, Main.try_block.
      match goal with
      | |- context [chat model ?prompt w] =>
          pose proof (Hdown prompt w) as Hr;
          destruct (chat model prompt w) as [r w']
      end.
      simpl in Hr. by subst r. }
    assert (∀ INSTRUCTION,
              always_error
                (Program.translate_with chat convert source_lang target_lang
                   model INSTRUCTION)) as Herr.
    { intros INSTRUCTION texts0 w. exists marker.
      split; [apply Hmarker | apply error_marker_tagged]. }
    split.
    + intros e. unfold srt_run, Program.translate_srt.
      rewrite translate_srt_unfold by done.
      destruct (srt_fold_down srt_translate progress_callback marker subs k
                  (Py.range_from (length subs) 0 (length subs) k)
                  (mkSrtLoop [] 0 e) (Hmarker _) (error_marker_tagged err))
        as (R & HR & HL).
      eexists _, R. split; [done|]. split; [|split; [exact HR|exact HL]].
      apply srt_loop_related; [done|]. intros st0 i0.
      by apply srt_body_degraded.
    + intros e. unfold text_run, Program.translate_plain_text.
      rewrite translate_plain_text_unfold by done. simpl.
      rewrite text_loop_degraded by done.
      destruct (text_fold_down text_translate progress_callback marker
                  (Engine.lines_to_process lines)
                  (length (Engine.lines_to_process lines)) k
                  (Py.range_from (length (Engine.lines_to_process lines)) 0
                     (length (Engine.lines_to_process lines)) k)
                  (mkTextLoop ∅ 0 e) (Hmarker _) (error_marker_tagged err))
        as (R & HR & HL).
      eexists _, R. split; [done|]. split; [exact HR|exact HL].
Qed.

End ProgramFacts.

(** ** The statements at concrete documents *)

Lemma failing_always_error : always_error Fixtures.failing.
Proof. intros texts w. eexists. split; reflexivity. Qed.

(** C2 at a batch that mixes an empty and a non-empty subtitle: the empty
    text is part of the request, the reply of one line is laid over the
    batch from its first unit on, and the empty subtitle ends up with the
    translation while the subtitle that had text ends up empty. *)
Theorem C2_srt_mixed_batch_sends_empty_unit :
  ∃ st,
    Program.translate_srt Fixtures.canned_chat id "English" "French"
      "translategemma" None true
      [Fixtures.cue 0 ""; Fixtures.cue 1 "Hi"] 2 (Fixtures.fresh ["Salut"])
    = Some (compose (new_subs st), env st)
    ∧ requests (env st) = [[""; "Hi"]]
    ∧ content <$> new_subs st = ["Salut"; ""].
Proof.
  exists (Engine.srt_loop
            (Program.translate_with Fixtures.canned_chat id "English"
               "French" "translategemma" (Program.SRT_INSTRUCTION None))
            true [Fixtures.cue 0 ""; Fixtures.cue 1 "Hi"] 2 [0]
            (Fixtures.fresh ["Salut"])).
  split; [reflexivity|]. split; by vm_compute.
Qed.

Lemma C3_batch_boundaries_witness :
  let e := Fixtures.fresh ([] : list Translated) in
  0 < 2
  ∧ (∃ out e',
       Engine.translate_plain_text Fixtures.scripted true
         ["Hello"; ""; "World"; "Bye"] 2 e = Some (out, e')
       ∧ let texts := non_empty_texts ["Hello"; ""; "World"; "Bye"] in
         let n := length texts in
         requests e'
         = requests e
           ++ ((λ j, Py.slice texts (j * 2) (min ((j + 1) * 2) n))
               <$> seq 0 (ceil_div n 2))
         ∧ length (requests e') = length (requests e) + ceil_div n 2).
Proof.
  intros e. split; [lia|].
  apply (C3_batch_boundaries Fixtures.scripted true
           [Fixtures.cue 0 "Hi"] ["Hello"; ""; "World"; "Bye"] 2 e).
  lia.
Defined.

(** C3 as stated fails for [translate_srt]: with two non-empty subtitles
    around an empty one and a batch size of 2 there are two calls, not
    ceil(2/2) = 1, and the first carries the empty text. *)
Lemma C3_counterexample :
  let subs := [Fixtures.cue 0 "A"; Fixtures.cue 1 ""; Fixtures.cue 2 "B"] in
  ∃ out e',
    Engine.translate_srt Fixtures.scripted true subs 2
      (Fixtures.fresh [RList ["x"; "y"]; RList ["z"]]) = Some (out, e')
    ∧ length (non_empty_units subs) = 2
    ∧ length (requests e') ≠ ceil_div (length (non_empty_units subs)) 2
    ∧ requests e' !! 0
      ≠ Some (Engine.batch_texts (Py.slice (non_empty_units subs) 0 2)).
Proof.
  eexists _, _. split; [vm_compute; reflexivity|].
  split; [by vm_compute|]. split; by vm_compute.
Qed.

Lemma C9_progress_reports_witness :
  0 < 2 ∧ true = true
  ∧ (∃ out e',
       Engine.translate_srt Fixtures.scripted true
         [Fixtures.cue 0 "A"; Fixtures.cue 1 ""; Fixtures.cue 2 "B"] 2
         (Fixtures.fresh []) = Some (out, e')
       ∧ progress e' = [(2, 3); (3, 3)]).
Proof.
  split; [lia|]. split; [done|].
  destruct (C9_progress_reports Fixtures.scripted true
              [Fixtures.cue 0 "A"; Fixtures.cue 1 ""; Fixtures.cue 2 "B"]
              ["Hello"] 2 (Fixtures.fresh []))
    as [_ (out & e' & Hrun & Hprogress)]; [lia|done|].
  exists out, e'. split; [exact Hrun|]. exact Hprogress.
Defined.

(** C9 as stated fails for [translate_srt]: the total passed to the
    callback counts the empty subtitle too. *)
Lemma C9_counterexample :
  let subs := [Fixtures.cue 0 "A"; Fixtures.cue 1 ""] in
  ∃ out e',
    Engine.translate_srt Fixtures.scripted true subs 2
      (Fixtures.fresh [RList ["x"; "y"]]) = Some (out, e')
    ∧ progress e' = [(2, 2)]
    ∧ length (non_empty_units subs) = 1
    ∧ snd <$> progress e' ≠ [length (non_empty_units subs)].
Proof.
  eexists _, _. split; [vm_compute; reflexivity|].
  split; [by vm_compute|]. split; by vm_compute.
Qed.

Lemma C5_pad_and_truncate_witness :
  let subs :=
    [Fixtures.cue 0 "a"; Fixtures.cue 1 "b"; Fixtures.cue 2 "c";
     Fixtures.cue 3 "d"; Fixtures.cue 4 "e"] in
  let st := mkSrtLoop [] 0 (Fixtures.fresh [RList ["A"; "B"; "C"]]) in
  let tst :=
    mkTextLoop ∅ 0
      (Fixtures.fresh [RList ["1"; "2"; "3"; "4"; "5"; "6"; "7"]]) in
  let lines := ["a"; "b"; ""; "c"; "d"; "e"] in
  Engine.srt_appended Fixtures.scripted true subs 5 st 0 !! 2
  = Some (set_content "C" (Fixtures.cue 2 "c"))
  ∧ Engine.srt_appended Fixtures.scripted true subs 5 st 0 !! 3
    = Some (set_content "" (Fixtures.cue 3 "d"))
  ∧ translated_lines_map
      (Engine.text_body Fixtures.scripted true
         (Engine.lines_to_process lines) 5 5 tst 0) !! 5
    = Some "5"
  ∧ translated_lines_map
      (Engine.text_body Fixtures.scripted true
         (Engine.lines_to_process lines) 5 5 tst 0) !! 2
    = None.
Proof.
  intros subs st tst lines.
  destruct (C5_pad_and_truncate Fixtures.scripted true subs lines 5 5 st tst 0
              ["A"; "B"; "C"] ["1"; "2"; "3"; "4"; "5"; "6"; "7"])
    as ([_ Hsrt] & Htext & Hother); [reflexivity ..|].
  split; [exact (Hsrt 2 (Fixtures.cue 2 "c") eq_refl)|].
  split; [exact (Hsrt 3 (Fixtures.cue 3 "d") eq_refl)|].
  split; [exact (Htext 4 5 eq_refl)|].
  rewrite Hother; [reflexivity|].
  intros Hin. by repeat (apply elem_of_cons in Hin as [?|Hin]; [done|]);
    apply elem_of_nil in Hin.
Defined.

(** C5 as stated fails: of a batch of m = 5 units answered by r = 3
    results, unit m - r + 1 = 3 receives the third result, not the empty
    string; the units left empty are 4 and 5. *)
Lemma C5_counterexample :
  let subs :=
    [Fixtures.cue 0 "a"; Fixtures.cue 1 "b"; Fixtures.cue 2 "c";
     Fixtures.cue 3 "d"; Fixtures.cue 4 "e"] in
  ∃ st,
    Engine.translate_srt Fixtures.scripted true subs 5
      (Fixtures.fresh [RList ["A"; "B"; "C"]])
    = Some (compose (new_subs st), env st)
    ∧ content <$> new_subs st = ["A"; "B"; "C"; ""; ""]
    ∧ (content <$> new_subs st) !! (5 - 3 + 1 - 1) ≠ Some "".
Proof.
  intros subs.
  exists (Engine.srt_loop Fixtures.scripted true subs 5 [0]
            (Fixtures.fresh [RList ["A"; "B"; "C"]])).
  split; [reflexivity|]. split; by vm_compute.
Qed.



Lemma C8_plain_text_reconstruction_witness :
  let lines := ["Hello" +:+ Py.NL; "  " +:+ Py.NL; "World"] in
  0 < 2
  ∧ ∃ tst,
      let out := Engine.reconstruct lines (translated_lines_map tst) in
      Engine.translate_plain_text Fixtures.scripted true lines 2
        (Fixtures.fresh [RList ["A"; "B"]]) = Some (out, text_env tst)
      ∧ length out = 3
      ∧ out !! 1 = Some ("  " +:+ Py.NL).
Proof.
  intros lines. split; [lia|].
  destruct (C8_plain_text_reconstruction Fixtures.scripted true lines 2
              (Fixtures.fresh [RList ["A"; "B"]]))
    as (tst & Hrun & Hlen & Hout); [lia|].
  exists tst. split; [exact Hrun|]. split; [exact Hlen|].
  exact (proj2 (proj1 (Hout 1 _ eq_refl) eq_refl)).
Defined.

(** C8 as stated fails: a translatable final line that has no newline is
    written with one, even when its text comes back unchanged. *)
Lemma C8_counterexample :
  let lines := ["Hello"] in
  ∃ out e',
    Engine.translate_plain_text Fixtures.failing true lines 1
      (Fixtures.fresh ()) = Some (out, e')
    ∧ out = ["Hello" +:+ Py.NL]
    ∧ ends_with_newline <$> lines = [false]
    ∧ ends_with_newline <$> out = [true].
Proof.
  eexists _, _. split; [vm_compute; reflexivity|].
  split; [by vm_compute|]. split; by vm_compute.
Qed.

Lemma C10_realign_on_mismatch_witness :
  let text := ["one"; ""; "two"; "three"] in
  let reply := "un" +:+ Py.NL +:+ " " +:+ Py.NL +:+ "deux" in
  Fixtures.canned_chat "translategemma"
    (Main.system_prompt (TList text) "English" "French" None None None)
    [reply] = (Ok reply, [])
  ∧ Main.translate Fixtures.canned_chat id (TList text) "English" "French"
      None None "translategemma" None [reply]
    = (RList ["un"; "deux"], []).
Proof.
  intros text reply. split; [reflexivity|].
  destruct (C10_realign_on_mismatch Fixtures.canned_chat id text "English"
              "French" None None "translategemma" None [reply] reply []
              eq_refl)
    as (returned & -> & Hmismatch & _).
  f_equal. f_equal.
  exact (proj1 (Hmismatch ltac:(vm_compute; lia))).
Defined.

(** A reply whose line count agrees with the request keeps its empty
    line. *)
Example aligned_reply_keeps_empty_line :
  let text := ["one"; ""; "two"] in
  let reply := "un" +:+ Py.NL +:+ Py.NL +:+ "deux" in
  Main.translate Fixtures.canned_chat id (TList text) "English" "French"
    None None "translategemma" None [reply]
  = (RList ["un"; ""; "deux"], []).
Proof. reflexivity. Qed.

Lemma C4_backend_failure_falls_back_witness :
  let subs := [Fixtures.cue 0 " Hi "; Fixtures.cue 1 "there"] in
  let lines := ["Hello" +:+ Py.NL; "World"] in
  let st := mkSrtLoop [] 0 (Fixtures.fresh ()) in
  let tst := mkTextLoop ∅ 0 (Fixtures.fresh ()) in
  let srt_translate :=
    Program.translate_with Fixtures.refusing_chat id "English" "French"
      "translategemma" (Program.SRT_INSTRUCTION None) in
  let message :=
    "Batch error: Error during translation: connection refused" in
  (0 < 2
   ∧ Py.any (Engine.batch_texts (Py.slice subs 0 (0 + 2))) = true
   ∧ ∀ prompt w,
       (Fixtures.refusing_chat "translategemma" prompt w).1
       = Raise "connection refused")
  ∧ content <$> Engine.srt_appended srt_translate true subs 2 st 0
    = ["Hi"; "there"]
  ∧ logged (env (Engine.srt_body srt_translate true subs 2 st 0)) = [message]
  ∧ (∃ st' R,
       Program.translate_srt Fixtures.refusing_chat id "English" "French"
         "translategemma" None true subs 2 (Fixtures.fresh ())
       = Some (compose (new_subs st'), env st')
       ∧ Forall2 degraded subs (new_subs st')
       ∧ requests (env st') = R
       ∧ logged (env st') = (λ _, message) <$> R)
  ∧ (∃ e' R,
       Program.translate_plain_text Fixtures.refusing_chat id "English"
         "French" "translategemma" None true lines 2 (Fixtures.fresh ())
       = Some (["Hello" +:+ Py.NL; "World" +:+ Py.NL], e')
       ∧ requests e' = R
       ∧ logged e' = (λ _, message) <$> R).
Proof.
  intros subs lines st tst srt_translate message.
  split; [split; [lia|split; [reflexivity|by intros prompt w]]|].
  destruct (C4_backend_failure_falls_back Fixtures.refusing_chat id
              "English" "French" "translategemma" None true subs lines 2 2
              st tst 0 "connection refused" () ())
    as (_ & (_ & _ & Hcontent & Hlogged) & _ & _ & _ & Hdown);
    [lia|reflexivity|reflexivity|reflexivity|].
  destruct (Hdown (λ prompt w, eq_refl)) as [Hsrt Htext].
  split; [exact Hcontent|]. split; [exact Hlogged|]. split.
  - destruct (Hsrt (Fixtures.fresh ())) as (st' & R & Hrun & Hdeg & HR & HL).
    exists st', R. split; [exact Hrun|]. split; [exact Hdeg|].
    split; [exact HR|exact HL].
  - destruct (Htext (Fixtures.fresh ())) as (e' & R & Hrun & HR & HL).
    exists e', R. split; [exact Hrun|]. split; [exact HR|exact HL].
Defined.

(** C4 as stated fails: the results of a batch whose request failed are
    the texts of the request, not the original texts of the batch. A
    subtitle ' Hi ' comes out as 'Hi', and the line ' Hello ' is entered in
    the map, and written, without its surrounding whitespace. *)
Lemma C4_counterexample :
  let subs := [Fixtures.cue 0 " Hi "] in
  let lines := [" Hello " +:+ Py.NL] in
  let srt_translate :=
    Program.translate_with Fixtures.refusing_chat id "English" "French"
      "translategemma" (Program.SRT_INSTRUCTION None) in
  let text_translate :=
    Program.translate_with Fixtures.refusing_chat id "English" "French"
      "translategemma" (Program.TEXT_INSTRUCTION None) in
  let st := mkSrtLoop [] 0 (Fixtures.fresh ()) in
  let tst := mkTextLoop ∅ 0 (Fixtures.fresh ()) in
  let appended := Engine.srt_appended srt_translate true subs 1 st 0 in
  let m :=
    translated_lines_map
      (Engine.text_body text_translate true (Engine.lines_to_process lines)
         1 1 tst 0) in
  srt_translate ["Hi"] ()
  = (RStr "Error during translation: connection refused", ())
  ∧ content <$> appended = ["Hi"]
  ∧ content <$> appended ≠ content <$> Py.slice subs 0 (0 + 1)
  ∧ m !! 0 = Some "Hello"
  ∧ Engine.reconstruct lines m = ["Hello" +:+ Py.NL]
  ∧ Engine.reconstruct lines m ≠ lines.
Proof.
  intros subs lines srt_translate text_translate st tst appended m.
  split; [reflexivity|]. split; [by vm_compute|]. split; [by vm_compute|].
  split; [by vm_compute|]. split; by vm_compute.
Qed.

(** ** Further properties: the built-ins *)

#[local] Arguments Py.isspace : simpl never.

Lemma lstrip_idem s : Py.lstrip (Py.lstrip s) = Py.lstrip s.
Proof.
  induction s as [|c t IH]; simpl; [done|].
  destruct (Py.isspace c) eqn:Hc; [done|]. simpl. by rewrite Hc.
Qed.

Lemma rstrip_idem s : Py.rstrip (Py.rstrip s) = Py.rstrip s.
Proof.
  induction s as [|c t IH]; simpl; [done|].
  destruct (Py.rstrip t) as [|a r] eqn:Ht.
  - destruct (Py.isspace c) eqn:Hc; simpl; [done|]. by rewrite Hc.
  - simpl in *. by rewrite IH.
Qed.

Lemma lstrip_rstrip s : Py.lstrip (Py.rstrip s) = Py.rstrip (Py.lstrip s).
Proof.
  induction s as [|c t IH]; simpl; [done|].
  destruct (Py.isspace c) eqn:Hc.
  - rewrite <- IH. destruct (Py.rstrip t) as [|a r]; simpl; by rewrite ?Hc.
  - simpl. destruct (Py.rstrip t) as [|a r]; simpl; by rewrite ?Hc.
Qed.

Lemma strip_idem s : Py.strip (Py.strip s) = Py.strip s.
Proof.
  unfold Py.strip.
  by rewrite <- (lstrip_rstrip (Py.rstrip s)), rstrip_idem, lstrip_idem.
Qed.

Lemma split_plain c s : has_char c s = false → Py.split c s = [s].
Proof.
  induction s as [|a t IH]; simpl; [done|].
  intros [Ha Ht]%orb_false_iff. rewrite Ha, IH by done. done.
Qed.

Lemma split_app_sep c x rest :
  has_char c x = false →
  Py.split c (x +:+ String c rest) = x :: Py.split c rest.
Proof.
  induction x as [|a t IH]; simpl.
  - intros _. by rewrite Ascii.eqb_refl.
  - intros [Ha Ht]%orb_false_iff. rewrite Ha, IH by done. done.
Qed.

(** Splitting what was joined gives the list back, for a list that is not
    empty and whose elements are free of the separator. *)
Lemma split_join c l :
  l ≠ [] → Forall (λ s, has_char c s = false) l →
  Py.split c (Py.join (String c EmptyString) l) = l.
Proof.
  intros Hne Hl. induction Hl as [|x l Hx Hl IH]; [done|].
  destruct l as [|y l].
  - simpl. by apply split_plain.
  - change (Py.join (String c "") (x :: y :: l))
      with (x +:+ String c (Py.join (String c "") (y :: l))).
    rewrite split_app_sep by done. f_equal. by apply IH.
Qed.

(** ** Further properties: [translate] *)

Lemma code_map_truthy lang :
  Py.truthy (default "unknown" (Main.code_map !! lang)) = true.
Proof.
  destruct (Main.code_map !! lang) as [code|] eqn:Hlang; simpl; [|done].
  unfold Main.code_map in Hlang.
  repeat (apply lookup_insert_Some in Hlang as [[_ <-]|[_ Hlang]]; [done|]).
  by rewrite lookup_empty in Hlang.
Qed.

(** X3. Language codes. A code that is omitted, or passed as the empty
    string, is replaced by the code the table has for the language name,
    and by 'unknown' for a name the table does not have: the prompt is the
    one built from that code passed explicitly. *)
Theorem X3_language_codes_default text sl tl instr :
  let code lang := Some (default "unknown" (Main.code_map !! lang)) in
  Main.system_prompt text sl tl None None instr
  = Main.system_prompt text sl tl (code sl) (code tl) instr
  ∧ Main.system_prompt text sl tl (Some "") (Some "") instr
    = Main.system_prompt text sl tl (code sl) (code tl) instr
  ∧ (Main.code_map !! sl = None →
     Main.system_prompt text sl tl None None instr
     = Main.system_prompt text sl tl (Some "unknown") (code tl) instr).
Proof.
  intros code. unfold Main.system_prompt, Main.falsy, code. simpl.
  rewrite !code_map_truthy. simpl. split; [done|]. split; [done|].
  by intros ->.
Qed.

Section TranslateMore.
Context {World : Type}.
Variable chat : string → string → World → Exc string * World.
Variable convert : string → string.

(** X1. Shape of the answer to a list request. [translate] answers a list
    of texts with a list exactly when the call to the backend succeeded,
    and otherwise with the marker made from the exception; the marker
    contains 'Error', so a string received for a list request always passes
    the error test of the engines. *)
Theorem X1_list_request_answer text sl tl sc tc m instr w :
  match (Main.translate chat convert (TList text) sl tl sc tc m instr w).1 with
  | RList _ =>
      ∃ reply,
        (chat m (Main.system_prompt (TList text) sl tl sc tc instr) w).1
        = Ok reply
  | RStr s =>
      ∃ err,
        (chat m (Main.system_prompt (TList text) sl tl sc tc instr) w).1
        = Raise err
        ∧ s = Main.error_marker err
        ∧ Py.contains "Error" s = true
        ∧ Engine.resolved (RStr s) text = text
  end.
Proof.
  unfold Main.translate, Main.try_block.
  destruct (chat m _ w) as [[reply|err] w']; simpl.
  - by exists reply.
  - exists err. done.
Qed.

(** X2. A reply of one line per text. When the backend answers a list
    request with exactly one line for each text, each line free of newlines
    and the reply free of surrounding whitespace, [translate] returns these
    lines, in order, converted when the target is Traditional Chinese. *)
Theorem X2_aligned_reply text ts sl tl sc tc m instr w w' :
  chat m (Main.system_prompt (TList text) sl tl sc tc instr) w
  = (Ok (Py.join Py.NL ts), w') →
  length ts = length text →
  Forall (λ t, has_char Py.nl t = false) ts →
  Py.strip (Py.join Py.NL ts) = Py.join Py.NL ts →
  Main.translate chat convert (TList text) sl tl sc tc m instr w
  = (RList ((if Py.contains "Traditional Chinese" tl then convert else id)
            <$> ts), w').
Proof.
  intros Hchat Hlen Hnl Hstrip.
  rewrite (translate_ok _ _ _ _ _ _ _ _ _ _ _ _ Hchat).
  unfold Main.post_process, Main.realign. rewrite Hstrip.
  do 2 f_equal.
  destruct ts as [|t ts'].
  - destruct text; [|done]. simpl.
    by destruct (Py.contains _ _).
  - rewrite (split_join Py.nl) by done.
    rewrite Hlen, Nat.eqb_refl. simpl.
    destruct (Py.contains _ _); [done|]. by rewrite list_fmap_id.
Qed.

(** What [translate] makes of a reply that is blank. *)
Lemma blank_reply text tl reply :
  Py.strip reply = "" → convert "" = "" →
  ∃ rs, Main.post_process convert (TList text) tl reply = RList rs
        ∧ Forall (λ t, t = "") rs.
Proof.
  intros Hblank Hconv. unfold Main.post_process, Main.realign.
  rewrite Hblank. simpl. eexists. split; [done|].
  destruct (negb _); simpl; destruct (Py.contains _ _); simpl;
    repeat constructor; done.
Qed.

End TranslateMore.

(** ** Further properties: the engines *)

Section EngineMore.
Context {World : Type}.
Variable translate : list string → World → Translated * World.
Variable progress_callback : bool.

Local Abbreviation srt_body := (Engine.srt_body translate progress_callback).
Local Abbreviation srt_loop := (Engine.srt_loop translate progress_callback).
Local Abbreviation translate_srt :=
  (Engine.translate_srt translate progress_callback).
Local Abbreviation text_body :=
  (Engine.text_body translate progress_callback).
Local Abbreviation text_loop :=
  (Engine.text_loop translate progress_callback).
Local Abbreviation translate_plain_text :=
  (Engine.translate_plain_text translate progress_callback).
Local Abbreviation srt_appended :=
  (Engine.srt_appended translate progress_callback).
Local Abbreviation batch_results := (Engine.batch_results translate).
Local Abbreviation batch_texts := Engine.batch_texts.

Implicit Types (subs batch : list Subtitle) (e : Env World)
  (st : SrtLoop World) (tst : TextLoop World) (ltp : list (nat * string))
  (i k : nat).

(** *** A backend that translates line by line *)





(** *** A document without translatable text *)

Lemma any_false_Forall (l : list string) :
  Forall (λ t, t = "") l → Py.any l = false.
Proof.
  unfold Py.any. induction 1 as [|t l -> _ IH]; [done|]. simpl. exact IH.
Qed.

Lemma batch_texts_all_empty subs a b :
  Forall (λ sub, Py.strip (content sub) = "") subs →
  Py.any (batch_texts (Py.slice subs a b)) = false.
Proof.
  intros Hall. apply any_false_Forall. unfold Engine.batch_texts.
  apply Forall_fmap, Forall_forall. intros sub Hin. simpl.
  rewrite Forall_forall in Hall. by eapply Hall, slice_subseteq.
Qed.

Lemma srt_fold_all_empty subs k iterator st :
  Forall (λ sub, Py.strip (content sub) = "") subs →
  let st' := foldl (srt_body subs k) st iterator in
  new_subs st'
  = new_subs st ++ concat ((λ j, Py.slice subs j (j + k)) <$> iterator)
  ∧ world (env st') = world (env st)
  ∧ logged (env st') = logged (env st)
  ∧ requests (env st') = requests (env st).
Proof.
  intros Hall. revert st.
  induction iterator as [|i iterator IH]; intros st; simpl.
  - by rewrite app_nil_r.
  - destruct (IH (srt_body subs k st i)) as (Hn & Hw & Hl & Hr).
    rewrite Hn, Hw, Hl, Hr. clear IH Hn Hw Hl Hr.
    unfold Engine.srt_body. fold (Engine.batch_texts (Py.slice subs i (i + k))).
    rewrite batch_texts_all_empty by done. simpl.
    rewrite <- app_assoc. split; [done|].
    destruct (report_env progress_callback
                (current_progress st + length (Py.slice subs i (i + k)))
                (length subs) (env st)) as (Hw & Hl & Hr & _).
    done.
Qed.

(** X5. Nothing to translate. For a positive batch size, the subtitles of
    a file whose subtitles are all empty after trimming are handed to the
    serializer as they were parsed, without any call to [translate] and
    without a log line; a text whose lines are all empty after trimming is
    written back line by line as it was read, and nothing at all is
    observed: no call, no log line, no progress report. *)
Theorem X5_nothing_to_translate subs lines k e :
  0 < k →
  Forall (λ sub, Py.strip (content sub) = "") subs →
  Forall (λ line, Py.strip line = "") lines →
  (∃ e',
     translate_srt subs k e = Some (compose subs, e')
     ∧ world e' = world e ∧ logged e' = logged e
     ∧ requests e' = requests e)
  ∧ translate_plain_text lines k e = Some (lines, e).
Proof.
  intros Hk Hsubs Hlines. split.
  - rewrite translate_srt_unfold by done. simpl. eexists.
    destruct (srt_fold_all_empty subs k
                (Py.range_from (length subs) 0 (length subs) k)
                (mkSrtLoop [] 0 e) Hsubs) as (Hn & Hw & Hl & Hr).
    rewrite slices_cover in Hn by done. simpl in Hn.
    unfold Engine.srt_loop. rewrite Hn. done.
  - rewrite translate_plain_text_unfold by done. simpl.
    assert (Engine.lines_to_process lines = []) as ->.
    { destruct (Engine.lines_to_process lines) as [|[idx t] ltp] eqn:Hltp;
        [done|].
      assert ((idx, t) ∈ Engine.lines_to_process lines) as Hin
        by (rewrite Hltp; left).
      apply ltp_elem in Hin as (line & Hline & -> & Hne).
      rewrite Forall_lookup in Hlines. by specialize (Hlines _ _ Hline). }
    simpl. do 2 f_equal.
    apply list_eq. intros idx. rewrite reconstruct_lookup, lookup_empty.
    by destruct (lines !! idx).
Qed.

(** *** Progress *)

Lemma ceil_div_mul n k : 0 < k → n ≤ ceil_div n k * k.
Proof.
  intros Hk. unfold ceil_div.
  pose proof (Nat.div_mod (n + k - 1) k ltac:(lia)) as Hdm.
  pose proof (Nat.mod_upper_bound (n + k - 1) k ltac:(lia)) as Hlt.
  nia.
Qed.

(** The reports of a loop over [total] units, [total] positive: the last
    one is (total, total), and all stay within the total. *)
Lemma progress_events_last (total shown k : nat) :
  0 < k → 0 < total →
  let evs :=
    (λ j, (min (j + k) total, shown))
    <$> Py.range_from total 0 total k in
  last evs = Some (total, shown)
  ∧ Forall (λ p, 0 < p.1 ≤ total ∧ p.2 = shown) evs.
Proof.
  intros Hk Htotal evs. unfold evs. rewrite range_from_0 by done.
  rewrite <- list_fmap_compose. split.
  - rewrite (ceil_div_step total) by done.
    rewrite seq_S, fmap_app. simpl. rewrite last_snoc. do 2 f_equal.
    pose proof (ceil_div_mul total k Hk) as Hmul.
    rewrite (ceil_div_step total) in Hmul by done. lia.
  - apply Forall_fmap, Forall_forall. intros j _. simpl. lia.
Qed.

(** X6. The progress bar fills up. For a positive batch size and a progress
    callback: over a subtitle file with N > 0 subtitles the reports of
    [translate_srt] all lie in 1..N of N and the last one is (N, N); over a
    text with n > 0 translatable lines the reports of
    [translate_plain_text] all lie in 1..n of n and the last one is
    (n, n). *)
Theorem X6_progress_ends_at_total subs lines k e :
  0 < k → progress_callback = true →
  subs ≠ [] → non_empty_texts lines ≠ [] →
  (∃ out e' evs,
     translate_srt subs k e = Some (out, e')
     ∧ progress e' = progress e ++ evs
     ∧ last evs = Some (length subs, length subs)
     ∧ Forall (λ p, 0 < p.1 ≤ length subs ∧ p.2 = length subs) evs)
  ∧ (∃ out e' evs,
       translate_plain_text lines k e = Some (out, e')
       ∧ let n := length (non_empty_texts lines) in
         progress e' = progress e ++ evs
         ∧ last evs = Some (n, n)
         ∧ Forall (λ p, 0 < p.1 ≤ n ∧ p.2 = n) evs).
Proof.
  intros Hk Hcb Hsubs Hlines. split.
  - rewrite translate_srt_unfold by done. eexists _, _, _.
    split; [done|]. simpl. unfold Engine.srt_loop.
    rewrite srt_fold_progress by done. rewrite Hcb. simpl.
    split; [done|].
    apply progress_events_last; [done|].
    destruct subs; [done|]. simpl. lia.
  - rewrite translate_plain_text_unfold by done. eexists _, _, _.
    split; [done|]. simpl. unfold Engine.text_loop.
    rewrite text_fold_progress by done. rewrite Hcb. simpl.
    unfold non_empty_texts in *. rewrite <- ltp_texts in *.
    rewrite length_fmap. split; [done|].
    apply progress_events_last; [done|].
    destruct (Engine.lines_to_process lines); [done|]. simpl. lia.
Qed.

(** *** Log lines and requests *)

Lemma srt_fold_logged subs k iterator st :
  let st' := foldl (srt_body subs k) st iterator in
  ∃ L,
    logged (env st') = logged (env st) ++ L
    ∧ Forall batch_error L
    ∧ length (requests (env st)) + length L ≤ length (requests (env st')).
Proof.
  revert st. induction iterator as [|i iterator IH]; intros st; simpl.
  - exists []. rewrite app_nil_r. split; [done|]. split; [constructor|].
    simpl. lia.
  - destruct (IH (srt_body subs k st i)) as (L & -> & HL & Hlen).
    rewrite srt_body_logged. rewrite srt_body_requests in Hlen.
    rewrite (filter_bool_cons Py.any), filter_nil in Hlen.
    destruct (Py.any _).
    + destruct (translate _ _).1 as [s|rs]; [destruct (Py.contains _ s) eqn:Hs|].
      * exists (("Batch error: " +:+ s) :: L). rewrite <- app_assoc.
        split; [done|]. split.
        { constructor; [by exists s|done]. }
        rewrite length_app in Hlen. simpl in *. lia.
      * exists L. rewrite app_nil_r. split; [done|]. split; [done|].
        rewrite length_app in Hlen. simpl in *. lia.
      * exists L. rewrite app_nil_r. split; [done|]. split; [done|].
        rewrite length_app in Hlen. simpl in *. lia.
    + exists L. rewrite app_nil_r. split; [done|]. split; [done|].
      rewrite app_nil_r in Hlen. done.
Qed.

Lemma text_fold_logged ltp n k iterator tst :
  let tst' := foldl (text_body ltp n k) tst iterator in
  ∃ L,
    logged (text_env tst') = logged (text_env tst) ++ L
    ∧ Forall batch_error L
    ∧ length (requests (text_env tst)) + length L
      ≤ length (requests (text_env tst')).
Proof.
  revert tst. induction iterator as [|i iterator IH]; intros tst; simpl.
  - exists []. rewrite app_nil_r. split; [done|]. split; [constructor|].
    simpl. lia.
  - destruct (IH (text_body ltp n k tst i)) as (L & -> & HL & Hlen).
    rewrite text_body_logged. rewrite text_body_requests in Hlen.
    rewrite length_app in Hlen. simpl in Hlen.
    destruct (translate _ _).1 as [s|rs]; [destruct (Py.contains _ s) eqn:Hs|].
    + exists (("Batch error: " +:+ s) :: L). rewrite <- app_assoc.
      split; [done|]. split.
      { constructor; [by exists s|done]. }
      simpl. lia.
    + exists L. rewrite app_nil_r. split; [done|]. split; [done|]. lia.
    + exists L. rewrite app_nil_r. split; [done|]. split; [done|]. lia.
Qed.

(** X7. What the loops log. For a positive batch size and whatever
    [translate] answers, every message an engine logs while translating is
    a batch error, 'Batch error: ' followed by an answer that contains
    'Error', and there are at most as many of them as calls to
    [translate]. *)
Theorem X7_only_batch_errors_logged subs lines k e :
  0 < k →
  (∃ out e' L,
     translate_srt subs k e = Some (out, e')
     ∧ logged e' = logged e ++ L
     ∧ Forall batch_error L
     ∧ length (requests e) + length L ≤ length (requests e'))
  ∧ (∃ out e' L,
       translate_plain_text lines k e = Some (out, e')
       ∧ logged e' = logged e ++ L
       ∧ Forall batch_error L
       ∧ length (requests e) + length L ≤ length (requests e')).
Proof.
  intros Hk. split.
  - rewrite translate_srt_unfold by done.
    destruct (srt_fold_logged subs k
                (Py.range_from (length subs) 0 (length subs) k)
                (mkSrtLoop [] 0 e)) as (L & HL).
    by eexists _, _, L.
  - rewrite translate_plain_text_unfold by done.
    destruct (text_fold_logged (Engine.lines_to_process lines)
                (length (Engine.lines_to_process lines)) k
                (Py.range_from (length (Engine.lines_to_process lines)) 0
                   (length (Engine.lines_to_process lines)) k)
                (mkTextLoop ∅ 0 e)) as (L & HL).
    by eexists _, _, L.
Qed.

(** X8. What is sent is trimmed. For a positive batch size, every text of
    every request an engine makes is free of leading and trailing
    whitespace (trimming it again changes nothing), and a text sent by
    [translate_plain_text] is moreover never empty. *)
Theorem X8_requests_are_trimmed subs lines k e :
  0 < k →
  (∃ out e' R,
     translate_srt subs k e = Some (out, e')
     ∧ requests e' = requests e ++ R
     ∧ Forall (Forall (λ t, Py.strip t = t)) R)
  ∧ (∃ out e' R,
       translate_plain_text lines k e = Some (out, e')
       ∧ requests e' = requests e ++ R
       ∧ Forall (Forall (λ t, Py.strip t = t ∧ t ≠ "")) R).
Proof.
  intros Hk. split.
  - rewrite translate_srt_unfold by done. eexists _, _, _.
    split; [done|]. simpl. unfold Engine.srt_loop.
    rewrite srt_fold_requests. simpl. split; [done|].
    apply Forall_forall. intros texts [_ Hin]%list_elem_of_filter.
    apply list_elem_of_fmap in Hin as (j & -> & _).
    unfold Engine.batch_texts. apply Forall_fmap, Forall_forall.
    intros sub _. simpl. apply strip_idem.
  - rewrite translate_plain_text_unfold by done. eexists _, _, _.
    split; [done|]. simpl. unfold Engine.text_loop.
    rewrite text_fold_requests. simpl. split; [done|].
    apply Forall_forall. intros texts (j & -> & _)%list_elem_of_fmap.
    apply Forall_fmap, Forall_forall. intros [idx t] Hin. simpl.
    apply slice_subseteq, ltp_elem in Hin as (line & _ & -> & Hne).
    split; [apply strip_idem | done].
Qed.

End EngineMore.

(** ** Further properties: the program *)

Section ProgramMore.
Context {World : Type}.
Variable chat : string → string → World → Exc string * World.
Variable convert : string → string.
Variables (source_lang target_lang model : string).
Variable instruction : option string.
Variable progress_callback : bool.

Local Abbreviation srt_translate :=
  (Program.translate_with chat convert source_lang target_lang model
     (Program.SRT_INSTRUCTION instruction)).
Local Abbreviation text_translate :=
  (Program.translate_with chat convert source_lang target_lang model
     (Program.TEXT_INSTRUCTION instruction)).

Lemma pad_all_empty rs m j :
  Forall (λ t, t = "") rs → j < m → Engine.pad rs m !! j = Some "".
Proof.
  intros Hrs Hj. rewrite pad_lookup_default by done.
  destruct (rs !! j) as [t|] eqn:Ht; [|done]. simpl.
  rewrite Forall_lookup in Hrs. by rewrite (Hrs _ _ Ht).
Qed.

(** X9. A blank reply empties the batch. When the backend answers the
    request of a batch with a reply that is empty or all whitespace (and
    script conversion keeps the empty string empty), no error is seen:
    [translate_srt] gives every subtitle of the batch the empty text, and
    [translate_plain_text] enters every line of the batch in the map with
    the empty text. *)
Theorem X9_blank_reply_empties_batch
    subs lines k n st tst i reply reply' w1 w2 :
  let batch := Py.slice subs i (i + k) in
  let texts := Engine.batch_texts batch in
  let ltp := Engine.lines_to_process lines in
  let batch_tuples := Py.slice ltp i (i + k) in
  Py.any texts = true →
  chat model
    (Main.system_prompt (TList texts) source_lang target_lang None None
       (Some (Program.SRT_INSTRUCTION instruction)))
    (world (env st)) = (Ok reply, w1) →
  chat model
    (Main.system_prompt (TList batch_tuples.*2) source_lang target_lang
       None None (Some (Program.TEXT_INSTRUCTION instruction)))
    (world (text_env tst)) = (Ok reply', w2) →
  Py.strip reply = "" → Py.strip reply' = "" → convert "" = "" →
  content
  <$> Engine.srt_appended srt_translate progress_callback subs k st i
  = replicate (length batch) ""
  ∧ logged (env (Engine.srt_body srt_translate progress_callback subs k st i))
    = logged (env st)
  ∧ ∀ idx, idx ∈ batch_tuples.*1 →
      translated_lines_map
        (Engine.text_body text_translate progress_callback ltp n k tst i)
      !! idx = Some "".
Proof.
  intros batch texts ltp batch_tuples Hany Hsrt Htext Hblank Hblank' Hconv.
  destruct (blank_reply convert texts target_lang reply Hblank Hconv)
    as (rs & Hrs & Hall).
  destruct (blank_reply convert batch_tuples.*2 target_lang reply' Hblank'
              Hconv) as (rs' & Hrs' & Hall').
  assert (srt_translate texts (world (env st)) = (RList rs, w1)) as Hs.
  { unfold Program.translate_with.
    by rewrite (translate_ok _ _ _ _ _ _ _ _ _ _ _ _ Hsrt), Hrs. }
  assert (text_translate batch_tuples.*2 (world (text_env tst))
          = (RList rs', w2)) as Ht.
  { unfold Program.translate_with.
    by rewrite (translate_ok _ _ _ _ _ _ _ _ _ _ _ _ Htext), Hrs'. }
  split; [|split].
  - rewrite srt_appended_eq. fold batch texts. rewrite Hany.
    unfold Engine.batch_results. rewrite Hs. simpl.
    apply list_eq. intros j.
    rewrite list_lookup_fmap, list_lookup_imap.
    destruct (batch !! j) as [sub|] eqn:Hj; simpl.
    + apply lookup_lt_Some in Hj as Hlt.
      rewrite lookup_replicate_2 by done. f_equal.
      unfold Engine.assign. rewrite pad_all_empty; [done|done|].
      unfold texts, Engine.batch_texts. by rewrite length_fmap.
    + apply lookup_ge_None in Hj. symmetry.
      by apply lookup_replicate_None.
  - rewrite srt_body_logged. fold batch texts. rewrite Hany, Hs. simpl.
    apply app_nil_r.
  - intros idx (j & Hj)%list_elem_of_lookup.
    rewrite text_body_map. fold ltp batch_tuples.
    unfold Engine.batch_results. rewrite Ht. simpl.
    assert (j < length batch_tuples.*2) as Hlt.
    { rewrite length_fmap, <- (length_fmap fst). by eapply lookup_lt_Some. }
    apply (insert_pairs_lookup _ _ j).
    + rewrite fst_zip by (rewrite pad_length, !length_fmap; lia).
      eapply sublist_NoDup; [apply (ltp_NoDup lines)|].
      apply fmap_sublist. unfold batch_tuples, Py.slice.
      etrans; [apply sublist_take | apply sublist_drop].
    + apply lookup_zip_with_Some. eexists _, _. split; [done|].
      split; [done|]. by apply pad_all_empty.
Qed.

End ProgramMore.

(** ** Further properties: the functions around the loops *)

Section FilesFacts.
Context {World : Type}.
Variable translate : list string → World → Translated * World.
Variable progress_callback : bool.
Variable read : string → string → World → ReadResult string * World.
Variable readlines : string → World → Exc (list string) * World.
Variable parse : string → Exc (list Subtitle).
Variable path_exists : string → World → bool.
Variable splitext : string → string * string.
Variable dirname : string → string.
Variable makedirs : string → World → Exc unit * World.
Variable write : string → World → Exc unit * World.

Local Abbreviation file_translate_srt :=
  (Files.translate_srt translate progress_callback read parse path_exists
     splitext dirname makedirs write).
Local Abbreviation file_translate_plain_text :=
  (Files.translate_plain_text translate progress_callback readlines
     path_exists splitext dirname makedirs write).
Local Abbreviation srt_content_run :=
  (Files.translate_srt_content translate progress_callback parse path_exists
     splitext dirname makedirs write).
Local Abbreviation save :=
  (Files.save path_exists splitext dirname makedirs write).

Implicit Types (fe : FileEnv World).

Lemma translate_srt_reads file_path sl tl k out fe content w1 :
  srt_content read file_path (world (engine_env fe)) = Some (content, w1) →
  file_translate_srt file_path sl tl k out fe
  = srt_content_run file_path sl tl k out content
      (Files.with_world w1
         (Files.flog ("Reading " +:+ file_path +:+ "...") fe)).
Proof.
  unfold srt_content, Files.translate_srt. simpl.
  destruct (read "utf-8" file_path _) as [[c|e|e] w] eqn:Hread; simpl.
  - by intros [= -> ->].
  - destruct (read "utf-8-sig" file_path w) as [[c|e'|e'] w'] eqn:Hread2;
      simpl; [|done..].
    by intros [= -> ->].
  - done.
Qed.

(** X10. No document, no work. [translate_srt] contacts the backend and
    touches the file system only after it has read and parsed the file.
    When the file cannot be opened or read (other than for its encoding),
    the exception leaves the function after the line 'Reading ...'; when it
    decodes neither as UTF-8 nor as UTF-8 with signature, or when the
    content does not parse, the function logs the error and returns. In all
    these cases there is no request, no progress report and no file
    operation. *)
Theorem X10_srt_no_document_no_work file_path sl tl k out fe :
  let w := world (engine_env fe) in
  let reading := "Reading " +:+ file_path +:+ "..." in
  let result := file_translate_srt file_path sl tl k out fe in
  (∀ e, (read "utf-8" file_path w).1 = ReadFailure e →
     result.1 = Raise e ∧ only_logged [reading] fe result.2)
  ∧ (∀ e w1,
       read "utf-8" file_path w = (DecodeError e, w1) →
       (∀ content, (read "utf-8-sig" file_path w1).1 ≠ ReadOk content) →
       result.1 = Ok ()
       ∧ only_logged
           [reading; "Error reading file " +:+ file_path +:+ ". Is it UTF-8?"]
           fe result.2)
  ∧ (∀ content w1 e,
       srt_content read file_path w = Some (content, w1) →
       parse content = Raise e →
       result.1 = Ok ()
       ∧ only_logged [reading; "Error parsing SRT: " +:+ e] fe result.2).
Proof.
  intros w reading result. subst w result. split; [|split].
  - intros e He. unfold Files.translate_srt. simpl.
    destruct (read "utf-8" file_path _) as [r w1].
    simpl in He. subst r. simpl. split; [done|]. by repeat split.
  - intros e w1 He Hsig. unfold Files.translate_srt. simpl.
    rewrite He. simpl.
    destruct (read "utf-8-sig" file_path w1) as [[c|e'|e'] w2] eqn:Hread2;
      simpl.
    + by specialize (Hsig c).
    + split; [done|]. unfold only_logged. simpl.
      rewrite <- app_assoc. done.
    + split; [done|]. unfold only_logged. simpl.
      rewrite <- app_assoc. done.
  - intros content w1 e Hcontent Hparse.
    rewrite (translate_srt_reads _ _ _ _ _ _ _ _ Hcontent).
    unfold Files.translate_srt_content. rewrite Hparse. simpl.
    split; [done|]. unfold only_logged. simpl.
    rewrite <- app_assoc. done.
Qed.

(** X11. A file that is missing or unreadable, for a text. When the file
    does not exist, [translate_plain_text] logs 'Error: File not found' and
    returns without reading; when reading raises, it logs the exception and
    returns. In both cases nothing is requested, reported or written.
    [translate_srt] has no such check: there the exception of opening a
    missing file leaves the function. *)
Theorem X11_text_missing_or_unreadable file_path sl tl k out fe :
  let w := world (engine_env fe) in
  let result := file_translate_plain_text file_path sl tl k out fe in
  (path_exists file_path w = false →
   result.1 = Ok ()
   ∧ only_logged ["Error: File not found: " +:+ file_path] fe result.2
   ∧ world (engine_env result.2) = w)
  ∧ (∀ e, path_exists file_path w = true →
       (readlines file_path w).1 = Raise e →
       result.1 = Ok ()
       ∧ only_logged
           ["Reading " +:+ file_path +:+ "..."; "Error reading file: " +:+ e]
           fe result.2)
  ∧ (∀ e, (read "utf-8" file_path w).1 = ReadFailure e →
       (file_translate_srt file_path sl tl k out fe).1 = Raise e).
Proof.
  intros w result. subst w result. split; [|split].
  - intros Hex. unfold Files.translate_plain_text.
    rewrite Hex. simpl. by repeat split.
  - intros e Hex Hread. unfold Files.translate_plain_text.
    rewrite Hex. simpl.
    destruct (readlines file_path _) as [r w1]. simpl in Hread. subst r.
    simpl. split; [done|]. unfold only_logged. simpl.
    rewrite <- app_assoc. done.
  - intros e He. unfold Files.translate_srt. simpl.
    destruct (read "utf-8" file_path _) as [r w1]. simpl in He. by subst r.
Qed.

(** *** Saving *)

Lemma engine_srt_frame subs k (e : Env World) :
  0 < k →
  ∃ st,
    Engine.translate_srt translate progress_callback subs k e
    = Some (compose (new_subs st), env st)
    ∧ Forall2 only_content subs (new_subs st).
Proof.
  intros Hk. rewrite translate_srt_unfold by done. eexists. split; [done|].
  apply srt_loop_related; [done|]. apply srt_body_only_content.
Qed.

(** What [save] does when creating the directory and writing succeed. *)
Lemma save_succeeds file_path out what op fe :
  (∀ p w, (makedirs p w).1 = Ok ()) →
  (∀ p w, (write p w).1 = Ok ()) →
  let path := Files.default_output_path splitext file_path out in
  ∃ fe' pre,
    save file_path out what op fe = (Ok (), fe')
    ∧ file_ops fe' = file_ops fe ++ pre ++ [op path]
    ∧ (pre = [] ∨ pre = [Makedirs (dirname path)])
    ∧ last (logged (engine_env fe')) = Some "Done!"
    ∧ requests (engine_env fe') = requests (engine_env fe)
    ∧ progress (engine_env fe') = progress (engine_env fe).
Proof.
  intros Hmk Hwr path. unfold Files.save, Files.ensure_output_dir.
  fold path.
  destruct (Py.truthy (dirname path) && negb _) eqn:Hdir.
  - pose proof (Hmk (dirname path) (world (engine_env fe))) as Hm.
    destruct (makedirs (dirname path) _) as [r w]. simpl in Hm. subst r.
    simpl.
    match goal with
    | |- context [write path ?w0] =>
        pose proof (Hwr path w0) as Hw; destruct (write path w0) as [r w']
    end.
    simpl in Hw. subst r. simpl.
    eexists _, [Makedirs (dirname path)]. split; [done|]. simpl.
    rewrite <- app_assoc. simpl. split; [done|]. split; [by right|].
    split; [|done]. by rewrite last_snoc.
  - simpl.
    match goal with
    | |- context [write path ?w0] =>
        pose proof (Hwr path w0) as Hw; destruct (write path w0) as [r w']
    end.
    simpl in Hw. subst r. simpl.
    eexists _, []. split; [done|]. simpl. split; [done|].
    split; [by left|]. split; [|done]. by rewrite last_snoc.
Qed.

(** X12. A successful run writes the document once. For a positive batch
    size, when the file is read and parsed (respectively read), and
    creating the directory and writing succeed, both functions return
    normally, end their log with 'Done!' and perform exactly one write, as
    their last file operation, preceded at most by the creation of the
    directory of the output path. The path is the one passed or, by
    default, the input path with '_zh' inserted before its extension. What
    [translate_srt] writes is the serialization of one subtitle per parsed
    subtitle, each with at most its text replaced: at most as many blocks
    as subtitles were parsed, numbered 1, 2, 3, ...; what
    [translate_plain_text] writes has one line per line read. *)
Theorem X12_success_writes_once
    file_path sl tl k out fe content w1 subs lines w2 :
  let w := world (engine_env fe) in
  let path :=
    match out with
    | Some p => p
    | None => (splitext file_path).1 +:+ "_zh" +:+ (splitext file_path).2
    end in
  0 < k →
  (∀ p w, (makedirs p w).1 = Ok ()) →
  (∀ p w, (write p w).1 = Ok ()) →
  srt_content read file_path w = Some (content, w1) →
  parse content = Ok subs →
  path_exists file_path w = true →
  readlines file_path w = (Ok lines, w2) →
  (∃ fe' pre new_subs,
     file_translate_srt file_path sl tl k out fe = (Ok (), fe')
     ∧ file_ops fe'
       = file_ops fe ++ pre ++ [WriteSrt path (compose new_subs)]
     ∧ (pre = [] ∨ pre = [Makedirs (dirname path)])
     ∧ Forall2 only_content subs new_subs
     ∧ length (compose new_subs) ≤ length subs
     ∧ index <$> compose new_subs
       = Some <$> seq 1 (length (compose new_subs))
     ∧ last (logged (engine_env fe')) = Some "Done!")
  ∧ (∃ fe' pre output_lines,
       file_translate_plain_text file_path sl tl k out fe = (Ok (), fe')
       ∧ file_ops fe' = file_ops fe ++ pre ++ [WriteLines path output_lines]
       ∧ (pre = [] ∨ pre = [Makedirs (dirname path)])
       ∧ length output_lines = length lines
       ∧ last (logged (engine_env fe')) = Some "Done!").
Proof.
  intros w path Hk Hmk Hwr Hcontent Hparse Hex Hlines. subst w.
  assert (Files.default_output_path splitext file_path out = path) as Hpath.
  { unfold Files.default_output_path, path.
    destruct out; [done|]. by destruct (splitext file_path). }
  split.
  - rewrite (translate_srt_reads _ _ _ _ _ _ _ _ Hcontent).
    unfold Files.translate_srt_content. rewrite Hparse.
    match goal with
    | |- context [Engine.translate_srt _ _ subs k ?e0] =>
        destruct (engine_srt_frame subs k e0 Hk) as (st & -> & Hframe)
    end.
    match goal with
    | |- context [save file_path out ?what ?op ?fe0] =>
        destruct (save_succeeds file_path out what op fe0 Hmk Hwr)
          as (fe' & pre & -> & Hops & Hpre & Hlast & _)
    end.
    rewrite Hpath in Hops, Hpre. simpl in Hops.
    exists fe', pre, (new_subs st). split; [done|].
    split; [done|]. split; [done|]. split; [done|].
    split; [|split; [apply compose_index|done]].
    rewrite (Forall2_length _ _ _ Hframe). apply compose_length_le.
  - unfold Files.translate_plain_text. rewrite Hex. simpl.
    rewrite Hlines. simpl.
    rewrite translate_plain_text_unfold by done. simpl.
    match goal with
    | |- context [save file_path out ?what ?op ?fe0] =>
        destruct (save_succeeds file_path out what op fe0 Hmk Hwr)
          as (fe' & pre & -> & Hops & Hpre & Hlast & _)
    end.
    rewrite Hpath in Hops, Hpre. simpl in Hops.
    eexists fe', pre, _. split; [done|]. split; [exact Hops|].
    split; [done|]. split; [|done].
    unfold Engine.reconstruct. apply length_imap.
Qed.

(** *** The last line of the log *)

Lemma last_snoc_ne (l : list string) m :
  m ≠ "Done!" → last (l ++ [m]) ≠ Some "Done!".
Proof. rewrite last_snoc. by intros Hm [= ?]. Qed.

Lemma last_app_errors (l L : list string) :
  last l ≠ Some "Done!" → Forall batch_error L →
  last (l ++ L) ≠ Some "Done!".
Proof.
  intros Hl HL. induction L as [|m L _] using rev_ind.
  - by rewrite app_nil_r.
  - rewrite app_assoc, last_snoc.
    apply Forall_app in HL as [_ Hm]. rewrite Forall_singleton in Hm.
    destruct Hm as (s & -> & _). by intros [= ?].
Qed.

Lemma engine_srt_logged subs k (e e' : Env World) blocks :
  Engine.translate_srt translate progress_callback subs k e
  = Some (blocks, e') →
  ∃ L, logged e' = logged e ++ L ∧ Forall batch_error L.
Proof.
  unfold Engine.translate_srt. destruct (Py.range _ _ _) as [iterator|];
    simpl; [|done].
  intros [= _ <-].
  destruct (srt_fold_logged translate progress_callback subs k iterator
              (mkSrtLoop [] 0 e)) as (L & HL & Herr & _).
  by exists L.
Qed.

Lemma engine_text_logged lines k (e e' : Env World) output_lines :
  Engine.translate_plain_text translate progress_callback lines k e
  = Some (output_lines, e') →
  ∃ L, logged e' = logged e ++ L ∧ Forall batch_error L.
Proof.
  unfold Engine.translate_plain_text.
  destruct (Py.range _ _ _) as [iterator|]; simpl; [|done].
  intros [= _ <-].
  destruct (text_fold_logged translate progress_callback
              (Engine.lines_to_process lines)
              (length (Engine.lines_to_process lines)) k iterator
              (mkTextLoop ∅ 0 e)) as (L & HL & Herr & _).
  by exists L.
Qed.

Lemma save_done file_path out what op fe r fe' :
  is_write (op (Files.default_output_path splitext file_path out)) = true →
  last (logged (engine_env fe)) ≠ Some "Done!" →
  save file_path out what op fe = (r, fe') →
  last (logged (engine_env fe')) = Some "Done!" →
  r = Ok ()
  ∧ ∃ ops o, file_ops fe' = ops ++ [o] ∧ is_write o = true.
Proof.
  intros Hop Hlast. unfold Files.save, Files.ensure_output_dir.
  set (path := Files.default_output_path splitext file_path out) in *.
  destruct (Py.truthy (dirname path) && negb _).
  - destruct (makedirs (dirname path) _) as [[[]|e] w]; simpl.
    + destruct (write path w) as [[[]|e] w']; simpl.
      * intros [= <- <-] _. split; [done|]. simpl. eauto.
      * intros [= <- <-]. simpl. intros Hdone.
        by apply last_snoc_ne in Hdone.
    + intros [= <- <-]. simpl. done.
  - simpl. destruct (write path _) as [[[]|e] w']; simpl.
    + intros [= <- <-] _. split; [done|]. simpl. eauto.
    + intros [= <- <-]. simpl. intros Hdone.
      by apply last_snoc_ne in Hdone.
Qed.

(** X13. 'Done!' means written. Whatever the file system and the backend
    do, and for every batch size, when the log of [translate_srt] or of
    [translate_plain_text] ends with 'Done!' the function has returned
    normally and its last file operation was the write of the document:
    every failure (reading, parsing, a zero batch size, creating the
    directory, writing) leaves another last line. *)
Theorem X13_done_means_written file_path sl tl k out fe :
  let srt := file_translate_srt file_path sl tl k out fe in
  let text := file_translate_plain_text file_path sl tl k out fe in
  (last (logged (engine_env srt.2)) = Some "Done!" →
   srt.1 = Ok ()
   ∧ ∃ ops o, file_ops srt.2 = ops ++ [o] ∧ is_write o = true)
  ∧ (last (logged (engine_env text.2)) = Some "Done!" →
     text.1 = Ok ()
     ∧ ∃ ops o, file_ops text.2 = ops ++ [o] ∧ is_write o = true).
Proof.
  intros srt text. subst srt text. split.
  - assert (∀ content fe0 r fe',
              last (logged (engine_env fe0)) ≠ Some "Done!" →
              srt_content_run file_path sl tl k out content fe0 = (r, fe') →
              last (logged (engine_env fe')) = Some "Done!" →
              r = Ok ()
              ∧ ∃ ops o, file_ops fe' = ops ++ [o] ∧ is_write o = true)
      as Hcontent.
    { intros content fe0 r fe' Hlast. unfold Files.translate_srt_content.
      destruct (parse content) as [subs|e].
      - destruct (Engine.translate_srt _ _ _ _ _) as [[blocks e']|] eqn:Hrun.
        + apply engine_srt_logged in Hrun as (L & HL & Herr).
          apply save_done; [done|]. simpl. rewrite HL.
          apply last_app_errors; [|done]. simpl. by apply last_snoc_ne.
        + intros [= <- <-]. simpl. intros Hdone.
          by apply last_snoc_ne in Hdone.
      - intros [= <- <-]. simpl. intros Hdone.
        by apply last_snoc_ne in Hdone. }
    unfold Files.translate_srt. simpl.
    destruct (read "utf-8" file_path _) as [[c|e|e] w]; simpl.
    + destruct (srt_content_run _ _ _ _ _ _ _) as [r fe'] eqn:Hrun.
      simpl. eapply Hcontent; [|exact Hrun]. simpl. by apply last_snoc_ne.
    + destruct (read "utf-8-sig" file_path w) as [[c|e'|e'] w']; simpl.
      * destruct (srt_content_run _ _ _ _ _ _ _) as [r fe'] eqn:Hrun.
        simpl. eapply Hcontent; [|exact Hrun]. simpl.
        by apply last_snoc_ne.
      * intros Hdone. by apply last_snoc_ne in Hdone.
      * intros Hdone. by apply last_snoc_ne in Hdone.
    + intros Hdone. by apply last_snoc_ne in Hdone.
  - unfold Files.translate_plain_text.
    destruct (negb _); simpl.
    { intros Hdone. by apply last_snoc_ne in Hdone. }
    destruct (readlines file_path _) as [[lines|e] w]; simpl.
    + destruct (Engine.translate_plain_text _ _ _ _ _)
        as [[output_lines e']|] eqn:Hrun.
      * apply engine_text_logged in Hrun as (L & HL & Herr).
        destruct (save _ _ _ _ _) as [r fe'] eqn:Hsave. simpl.
        eapply save_done; [|  |exact Hsave]; [done|].
        simpl. rewrite HL.
        apply last_app_errors; [|done]. simpl. by apply last_snoc_ne.
      * simpl. intros Hdone. by apply last_snoc_ne in Hdone.
    + intros Hdone. by apply last_snoc_ne in Hdone.
Qed.

End FilesFacts.

(** ** Further properties: the worker *)

Section WorkerFacts.
Context {World : Type}.
Variable path_join : string → string → string.
Variable basename : string → string.
Variable is_running : World → bool.
Variable translate_srt : string → string → World → Exc unit * World.
Variable translate_plain_text : string → string → World → Exc unit * World.
Variables (output_directory file_mode : string).

Local Abbreviation process :=
  (Worker.process path_join basename is_running translate_srt
     translate_plain_text output_directory file_mode).
Local Abbreviation run :=
  (Worker.run path_join basename is_running translate_srt
     translate_plain_text output_directory file_mode).
Local Abbreviation files_to_process :=
  (Worker.files_to_process path_join file_mode).
Local Abbreviation call_of :=
  (λ file_path : string,
     (file_path, path_join output_directory (basename file_path))).

Implicit Types (s : WorkerState World) (files : list string).

(** The loop: which files it hands to the engines and what it emits. *)
Lemma process_shape total idx files s :
  ∃ n body,
    calls (process total idx files s) = calls s ++ (call_of <$> take n files)
    ∧ signals (process total idx files s) = signals s ++ body
    ∧ Forall (λ sig, sig ≠ finished) body
    ∧ (files = [] → body = [])
    ∧ ((∀ w, is_running w = true) →
       n = length files
       ∧ (files ≠ [] →
          last body = Some (progress_total (idx + length files) total))).
Proof.
  revert idx s. induction files as [|file_path rest IH]; intros idx s.
  - exists 0, []. simpl. rewrite !app_nil_r. split; [done|]. split; [done|].
    split; [constructor|]. split; [done|]. intros _. done.
  - simpl. destruct (is_running (worker_world s)) eqn:Hrun; simpl.
    + destruct (if String.eqb file_mode "srt" then _ else _) as [r w]; simpl.
      match goal with
      | |- context [process total (S idx) rest ?s0] =>
          destruct (IH (S idx) s0)
            as (n & body & Hcalls & Hsignals & Hnf & Hnil & Hall);
          assert (∃ own,
                    signals s0 = signals s ++ own
                    ∧ calls s0 = calls s ++ [call_of file_path]
                    ∧ Forall (λ sig, sig ≠ finished) own
                    ∧ last own = Some (progress_total (idx + 1) total))
            as (own & Hown & Hcall & Hownf & Hlast)
      end.
      { destruct r as [[]|e]; simpl; eexists; rewrite <- !app_assoc; simpl.
        - split; [done|]. split; [done|]. split; [|done].
          repeat (constructor; [done|]). done.
        - split; [done|]. split; [done|]. split; [|done].
          repeat (constructor; [done|]). done. }
      rewrite Hcalls, Hsignals, Hown, Hcall. clear Hcalls Hsignals IH.
      exists (S n), (own ++ body). rewrite <- !app_assoc. simpl.
      split; [done|]. split; [done|]. split; [by apply Forall_app|].
      split; [done|].
      intros Hrunning. destruct (Hall Hrunning) as [-> Hbody].
      split; [done|]. intros _. rewrite last_app.
      destruct rest as [|file rest'].
      * rewrite Hnil by done. simpl. rewrite Hlast. simpl.
        do 2 f_equal.
      * rewrite Hbody by done. simpl. do 2 f_equal. lia.
    + exists 0, []. simpl. rewrite !app_nil_r. split; [done|].
      split; [done|]. split; [constructor|]. split; [done|].
      intros Hrunning. by rewrite Hrunning in Hrun.
Qed.

(** X14. The worker always finishes. Whatever the walk yields, whenever a
    stop is requested and whatever the engines do (exceptions included),
    [run] emits [finished] exactly once, as its last signal. *)
Theorem X14_finished_once_and_last walk s :
  ∃ body,
    signals (run walk s) = signals s ++ body ++ [finished]
    ∧ Forall (λ sig, sig ≠ finished) body.
Proof.
  unfold Worker.run. destruct (_ =? 0).
  - eexists [_]. simpl. rewrite <- app_assoc. split; [done|].
    by repeat constructor.
  - match goal with
    | |- context [process ?total 0 ?files ?s0] =>
        destruct (process_shape total 0 files s0)
          as (n & body & _ & Hsignals & Hnf & _)
    end.
    simpl. rewrite Hsignals. simpl.
    eexists (_ :: _ :: body ++ [_]). rewrite <- !app_assoc. simpl.
    rewrite <- !app_assoc. split; [done|].
    repeat (constructor; [done|]). apply Forall_app. split; [done|].
    by repeat constructor.
Qed.

Lemma run_calls_prefix walk s :
  ∃ n,
    calls (run walk s)
    = calls s ++ (call_of <$> take n (files_to_process walk)).
Proof.
  unfold Worker.run.
  destruct (Nat.eqb_spec (length (files_to_process walk)) 0) as [Hzero|Hpos].
  - exists 0. simpl. by rewrite app_nil_r.
  - match goal with
    | |- context [process ?total 0 ?files ?s0] =>
        destruct (process_shape total 0 files s0) as (n & body & Hcalls & _)
    end.
    simpl in *. exists n. by rewrite Hcalls.
Qed.

(** X15. Which files are translated. The calls [run] makes to the engines
    are, in the order of the walk, those for a first stretch of the
    discovered files, each file once, its output placed in the output
    directory under the base name of the input. When no stop is ever
    requested the stretch is all of them, whether or not an engine raised
    on the way, and the last progress over the files is (total, total). *)
Theorem X15_files_translated_in_order walk s :
  let files := files_to_process walk in
  (∃ n, calls (run walk s) = calls s ++ (call_of <$> take n files))
  ∧ ((∀ w, is_running w = true) →
     calls (run walk s) = calls s ++ (call_of <$> files)
     ∧ (files ≠ [] →
        ∃ body,
          signals (run walk s)
          = signals s ++ body
            ++ [progress_total (length files) (length files);
                log_msg AllTasksDone; finished])).
Proof.
  intros files. unfold Worker.run. fold files.
  destruct (Nat.eqb_spec (length files) 0) as [Hzero|Hpos].
  - apply length_zero_iff_nil in Hzero. rewrite Hzero. simpl. split.
    + exists 0. by rewrite app_nil_r.
    + intros _. by rewrite app_nil_r.
  - match goal with
    | |- context [process ?total 0 files ?s0] =>
        destruct (process_shape total 0 files s0)
          as (n & body & Hcalls & Hsignals & _ & _ & Hall)
    end.
    simpl in *. split.
    + exists n. by rewrite Hcalls.
    + intros Hrunning. destruct (Hall Hrunning) as [-> Hlast].
      rewrite Hcalls, firstn_all. split; [done|]. intros Hne.
      specialize (Hlast Hne). rewrite Hsignals.
      destruct body as [|sig body _] using rev_ind; [done|].
      rewrite last_snoc in Hlast. injection Hlast as ->.
      eexists (_ :: _ :: body). simpl. rewrite <- !app_assoc. done.
Qed.

Lemma files_to_process_elem walk p :
  p ∈ files_to_process walk
  ↔ ∃ root dirs files file,
      (root, dirs, files) ∈ walk ∧ file ∈ files
      ∧ PyStr.endswith (PyStr.lower file) (Worker.target_ext file_mode) = true
      ∧ Py.contains "_zh" (PyStr.lower file) = false
      ∧ p = path_join root file.
Proof.
  unfold Worker.files_to_process. rewrite list_elem_of_bind. split.
  - intros ([[root dirs] files] & Hp & Hentry). simpl in Hp.
    apply list_elem_of_bind in Hp as (file & Hp & Hfile).
    destruct (PyStr.endswith _ _) eqn:Hext; simpl in Hp;
      [|by apply elem_of_nil in Hp].
    destruct (Py.contains _ _) eqn:Hzh; simpl in Hp;
      [by apply elem_of_nil in Hp|].
    apply list_elem_of_singleton in Hp. by exists root, dirs, files, file.
  - intros (root & dirs & files & file & Hentry & Hfile & Hext & Hzh & ->).
    exists (root, dirs, files). split; [|done]. simpl.
    apply list_elem_of_bind. exists file. split; [|done].
    rewrite Hext, Hzh. simpl. by apply list_elem_of_singleton.
Qed.

(** X16. What is translated, and where the output goes. Provided the base
    name of a file of the walk joined to its directory is the name of the
    file, every call [run] makes to
    an engine is for a file that the walk found, whose name ends with the
    extension of the mode and does not contain '_zh' (both regardless of
    letter case), and the output path is the output directory joined with
    that same name. So a file found directly in the output directory is
    translated onto itself. *)
Theorem X16_output_keeps_the_name walk s file_path output_path :
  (∀ root dirs files file,
     (root, dirs, files) ∈ walk → file ∈ files →
     basename (path_join root file) = file) →
  calls s = [] →
  (file_path, output_path) ∈ calls (run walk s) →
  ∃ root dirs files file,
    (root, dirs, files) ∈ walk ∧ file ∈ files
    ∧ PyStr.endswith (PyStr.lower file) (Worker.target_ext file_mode) = true
    ∧ Py.contains "_zh" (PyStr.lower file) = false
    ∧ file_path = path_join root file
    ∧ output_path = path_join output_directory file
    ∧ (root = output_directory → output_path = file_path).
Proof.
  intros Hbase Hcalls Hin.
  destruct (run_calls_prefix walk s) as [n Hn].
  rewrite Hn, Hcalls in Hin. simpl in Hin.
  apply list_elem_of_fmap in Hin as (p & [= -> ->] & Hp).
  apply subseteq_take, files_to_process_elem in Hp
    as (root & dirs & files & file & Hentry & Hfile & Hext & Hzh & ->).
  exists root, dirs, files, file. rewrite (Hbase root dirs files file) by done.
  repeat (split; [done|]). by intros ->.
Qed.

End WorkerFacts.

(** ** Further properties: a second run in degraded mode *)

Lemma rstrip_app_nl s : Py.rstrip (s +:+ Py.NL) = Py.rstrip s.
Proof.
  induction s as [|c t IH]; [done|].
  change (String c t +:+ Py.NL) with (String c (t +:+ Py.NL)).
  simpl. by rewrite IH.
Qed.

Lemma strip_app_nl s : Py.strip (s +:+ Py.NL) = Py.strip s.
Proof. unfold Py.strip. by rewrite rstrip_app_nl. Qed.

(** A line after a run in which every request failed. *)
Lemma degraded_line_fixed line :
  let degraded_line :=
    λ line, if Py.truthy (Py.strip line)
            then Py.strip line +:+ Py.NL else line in
  degraded_line (degraded_line line) = degraded_line line.
Proof.
  simpl. destruct (Py.truthy (Py.strip line)) eqn:Htruthy.
  - by rewrite strip_app_nl, strip_idem, Htruthy.
  - by rewrite Htruthy.
Qed.

Section DegradedTwice.
Context {World : Type}.
Variable translate : list string → World → Translated * World.
Variable progress_callback : bool.

Lemma text_degraded_lines lines k (e : Env World) :
  0 < k → always_error translate →
  ∃ e',
    Engine.translate_plain_text translate progress_callback lines k e
    = Some ((λ line, if Py.truthy (Py.strip line)
                     then Py.strip line +:+ Py.NL else line) <$> lines,
            e').
Proof.
  intros Hk Herr. rewrite translate_plain_text_unfold by done.
  eexists. simpl. by rewrite text_loop_degraded.
Qed.

(** X17. Degraded mode settles. For a positive batch size and a backend
    that answers every request with an error marker, running
    [translate_plain_text] on the lines it has written gives the same lines
    again: one run already leaves every translatable line trimmed and
    ended by a newline, and every other line as it was. *)
Theorem X17_degraded_text_run_is_idempotent lines k (e e2 : Env World) :
  0 < k → always_error translate →
  ∃ out e1 e3,
    Engine.translate_plain_text translate progress_callback lines k e
    = Some (out, e1)
    ∧ Engine.translate_plain_text translate progress_callback out k e2
      = Some (out, e3).
Proof.
  intros Hk Herr.
  set (degraded_line :=
         λ line, if Py.truthy (Py.strip line)
                 then Py.strip line +:+ Py.NL else line).
  destruct (text_degraded_lines lines k e Hk Herr) as (e1 & Hrun).
  destruct (text_degraded_lines (degraded_line <$> lines) k e2 Hk Herr)
    as (e3 & Hrun2).
  exists (degraded_line <$> lines), e1, e3. split; [exact Hrun|].
  rewrite Hrun2. do 2 f_equal. rewrite <- list_fmap_compose.
  apply list_fmap_ext. intros _ line _. simpl.
  apply (degraded_line_fixed line).
Qed.

End DegradedTwice.

(** ** The further statements at concrete inputs *)

Lemma X2_aligned_reply_witness :
  let text := ["one"; "two"] in
  let ts := ["un"; "deux"] in
  (length ts = length text
   ∧ Forall (λ t, has_char Py.nl t = false) ts
   ∧ Py.strip (Py.join Py.NL ts) = Py.join Py.NL ts)
  ∧ Main.translate Fixtures.canned_chat id (TList text) "English" "French"
      None None "translategemma" None [Py.join Py.NL ts]
    = (RList ts, []).
Proof.
  intros text ts.
  assert (Forall (λ t, has_char Py.nl t = false) ts) as Hnl
    by (repeat constructor).
  split; [by repeat split|].
  exact (X2_aligned_reply Fixtures.canned_chat id text ts "English" "French"
           None None "translategemma" None [Py.join Py.NL ts] []
           eq_refl eq_refl Hnl eq_refl).
Defined.



Lemma X5_nothing_to_translate_witness :
  let subs := [Fixtures.cue 0 ""; Fixtures.cue 1 " "] in
  let lines := [Py.NL; " "] in
  0 < 2
  ∧ (∃ e',
       Engine.translate_srt Fixtures.scripted true subs 2
         (Fixtures.fresh [RList ["x"]]) = Some (compose subs, e')
       ∧ requests e' = [])
  ∧ Engine.translate_plain_text Fixtures.scripted true lines 2
      (Fixtures.fresh [RList ["x"]])
    = Some (lines, Fixtures.fresh [RList ["x"]]).
Proof.
  intros subs lines. split; [lia|].
  destruct (X5_nothing_to_translate Fixtures.scripted true subs lines 2
              (Fixtures.fresh [RList ["x"]]))
    as [(e' & Hrun & _ & _ & Hreq) Htext];
    [lia|by repeat constructor|by repeat constructor|].
  split; [|exact Htext]. exists e'. split; [exact Hrun | exact Hreq].
Defined.

Lemma X6_progress_ends_at_total_witness :
  let subs := [Fixtures.cue 0 "a"; Fixtures.cue 1 ""; Fixtures.cue 2 "c"] in
  let lines := ["a"; ""; "c"] in
  (0 < 2 ∧ subs ≠ [] ∧ non_empty_texts lines ≠ [])
  ∧ (∃ out e' evs,
       Engine.translate_srt Fixtures.scripted true subs 2
         (Fixtures.fresh []) = Some (out, e')
       ∧ progress e' = evs
       ∧ last evs = Some (3, 3))
  ∧ (∃ out e' evs,
       Engine.translate_plain_text Fixtures.scripted true lines 2
         (Fixtures.fresh []) = Some (out, e')
       ∧ progress e' = evs
       ∧ last evs = Some (2, 2)).
Proof.
  intros subs lines. split; [by repeat split; [lia|..]|].
  destruct (X6_progress_ends_at_total Fixtures.scripted true subs lines 2
              (Fixtures.fresh []))
    as [(out & e' & evs & Hrun & Hp & Hlast & _)
        (out' & e'' & evs' & Hrun' & Hp' & Hlast' & _)];
    [lia|done|done|done|].
  split.
  - exists out, e', evs. split; [exact Hrun|]. split; [exact Hp|exact Hlast].
  - exists out', e'', evs'. split; [exact Hrun'|].
    split; [exact Hp'|exact Hlast'].
Defined.

Lemma X7_only_batch_errors_logged_witness :
  0 < 1
  ∧ ∃ out e' L,
      Engine.translate_srt Fixtures.scripted true
        [Fixtures.cue 0 "a"; Fixtures.cue 1 "b"] 1
        (Fixtures.fresh [RList ["A"]]) = Some (out, e')
      ∧ logged e' = L
      ∧ Forall batch_error L.
Proof.
  split; [lia|].
  destruct (X7_only_batch_errors_logged Fixtures.scripted true
              [Fixtures.cue 0 "a"; Fixtures.cue 1 "b"] ["a"] 1
              (Fixtures.fresh [RList ["A"]]))
    as [(out & e' & L & Hrun & Hlog & Herr & _) _]; [lia|].
  exists out, e', L. split; [exact Hrun|]. split; [exact Hlog|exact Herr].
Defined.

Lemma X8_requests_are_trimmed_witness :
  0 < 2
  ∧ ∃ out e' R,
      Engine.translate_plain_text Fixtures.scripted true
        [" a " +:+ Py.NL; "  "; "b"] 2 (Fixtures.fresh [])
      = Some (out, e')
      ∧ requests e' = R
      ∧ Forall (Forall (λ t, Py.strip t = t ∧ t ≠ "")) R.
Proof.
  split; [lia|].
  destruct (X8_requests_are_trimmed Fixtures.scripted true
              [Fixtures.cue 0 " a "] [" a " +:+ Py.NL; "  "; "b"] 2
              (Fixtures.fresh []))
    as [_ (out & e' & R & Hrun & Hreq & Htrim)]; [lia|].
  exists out, e', R. split; [exact Hrun|]. split; [exact Hreq|exact Htrim].
Defined.

Lemma X9_blank_reply_empties_batch_witness :
  let subs := [Fixtures.cue 0 "Hi"; Fixtures.cue 1 "there"] in
  let st := mkSrtLoop [] 0 (Fixtures.fresh ["  "]) in
  let srt_translate :=
    Program.translate_with Fixtures.canned_chat id "English" "French"
      "translategemma" (Program.SRT_INSTRUCTION None) in
  Py.any (Engine.batch_texts (Py.slice subs 0 (0 + 2))) = true
  ∧ Py.strip "  " = ""
  ∧ content <$> Engine.srt_appended srt_translate true subs 2 st 0
    = [""; ""].
Proof.
  intros subs st srt_translate. split; [reflexivity|]. split; [reflexivity|].
  exact (proj1 (X9_blank_reply_empties_batch Fixtures.canned_chat id
                  "English" "French" "translategemma" None true subs
                  ["Hello"] 2 1 st
                  (mkTextLoop ∅ 0 (Fixtures.fresh ["  "])) 0 "  " "  " [] []
                  eq_refl eq_refl eq_refl eq_refl eq_refl eq_refl)).
Defined.

Lemma X10_srt_no_document_no_work_witness :
  let run read :=
    Files.translate_srt Fixtures.failing true read FileFixtures.parse_one
      FileFixtures.exists_always FileFixtures.splitext_srt
      FileFixtures.dirname_out FileFixtures.succeed FileFixtures.succeed
      "movie.srt" "English" "French" 2 None (FileFixtures.fresh ()) in
  (run FileFixtures.read_missing).1 = Raise "No such file or directory"
  ∧ (run FileFixtures.read_binary).1 = Ok ()
  ∧ file_ops (run FileFixtures.read_binary).2 = []
  ∧ (run (FileFixtures.read_ok "")).1 = Ok ()
  ∧ requests (engine_env (run (FileFixtures.read_ok "")).2) = [].
Proof.
  intros run.
  destruct (X10_srt_no_document_no_work Fixtures.failing true
              FileFixtures.read_missing FileFixtures.parse_one
              FileFixtures.exists_always FileFixtures.splitext_srt
              FileFixtures.dirname_out FileFixtures.succeed
              FileFixtures.succeed "movie.srt" "English" "French" 2 None
              (FileFixtures.fresh ())) as (Hmissing & _ & _).
  destruct (X10_srt_no_document_no_work Fixtures.failing true
              FileFixtures.read_binary FileFixtures.parse_one
              FileFixtures.exists_always FileFixtures.splitext_srt
              FileFixtures.dirname_out FileFixtures.succeed
              FileFixtures.succeed "movie.srt" "English" "French" 2 None
              (FileFixtures.fresh ())) as (_ & Hbinary & _).
  destruct (X10_srt_no_document_no_work Fixtures.failing true
              (FileFixtures.read_ok "") FileFixtures.parse_one
              FileFixtures.exists_always FileFixtures.splitext_srt
              FileFixtures.dirname_out FileFixtures.succeed
              FileFixtures.succeed "movie.srt" "English" "French" 2 None
              (FileFixtures.fresh ())) as (_ & _ & Hparse).
  destruct (Hmissing _ eq_refl) as [Hr _].
  destruct (Hbinary "invalid start byte" () eq_refl
              ltac:(intros content; discriminate))
    as [Hr2 (_ & _ & _ & Hops)].
  destruct (Hparse "" () "no subtitles" eq_refl eq_refl)
    as [Hr3 (_ & Hreq & _)].
  split; [exact Hr|]. split; [exact Hr2|]. split; [exact Hops|].
  split; [exact Hr3|exact Hreq].
Defined.

Lemma X11_text_missing_or_unreadable_witness :
  let run exists_ readlines :=
    Files.translate_plain_text Fixtures.failing true readlines exists_
      FileFixtures.splitext_srt FileFixtures.dirname_out
      FileFixtures.succeed FileFixtures.succeed
      "notes.txt" "English" "French" 2 None (FileFixtures.fresh ()) in
  (run FileFixtures.exists_never (FileFixtures.readlines_ok ["a"])).1 = Ok ()
  ∧ logged
      (engine_env
         (run FileFixtures.exists_never (FileFixtures.readlines_ok ["a"])).2)
    = ["Error: File not found: notes.txt"]
  ∧ (run FileFixtures.exists_always FileFixtures.readlines_denied).1 = Ok ()
  ∧ file_ops
      (run FileFixtures.exists_always FileFixtures.readlines_denied).2 = [].
Proof.
  intros run.
  destruct (X11_text_missing_or_unreadable Fixtures.failing true
              FileFixtures.read_missing (FileFixtures.readlines_ok ["a"])
              FileFixtures.parse_one FileFixtures.exists_never
              FileFixtures.splitext_srt FileFixtures.dirname_out
              FileFixtures.succeed FileFixtures.succeed
              "notes.txt" "English" "French" 2 None (FileFixtures.fresh ()))
    as (Hmissing & _ & _).
  destruct (X11_text_missing_or_unreadable Fixtures.failing true
              FileFixtures.read_missing FileFixtures.readlines_denied
              FileFixtures.parse_one FileFixtures.exists_always
              FileFixtures.splitext_srt FileFixtures.dirname_out
              FileFixtures.succeed FileFixtures.succeed
              "notes.txt" "English" "French" 2 None (FileFixtures.fresh ()))
    as (_ & Hdenied & _).
  destruct (Hmissing eq_refl) as (Hr & (Hlog & _) & _).
  destruct (Hdenied "Permission denied" eq_refl eq_refl)
    as (Hr2 & _ & _ & _ & Hops).
  split; [exact Hr|]. split; [exact Hlog|]. split; [exact Hr2|exact Hops].
Defined.

Lemma X12_success_writes_once_witness :
  0 < 2
  ∧ (∃ fe' pre new_subs,
       Files.translate_srt Fixtures.failing true (FileFixtures.read_ok "Hi")
         FileFixtures.parse_one FileFixtures.exists_always
         FileFixtures.splitext_srt FileFixtures.dirname_out
         FileFixtures.succeed FileFixtures.succeed
         "movie.srt" "English" "French" 2 None (FileFixtures.fresh ())
       = (Ok (), fe')
       ∧ file_ops fe' = pre ++ [WriteSrt "movie_zh.srt" (compose new_subs)]
       ∧ length (compose new_subs) ≤ 1
       ∧ last (logged (engine_env fe')) = Some "Done!").
Proof.
  split; [lia|].
  destruct (X12_success_writes_once Fixtures.failing true
              (FileFixtures.read_ok "Hi") (FileFixtures.readlines_ok ["Hi"])
              FileFixtures.parse_one FileFixtures.exists_always
              FileFixtures.splitext_srt FileFixtures.dirname_out
              FileFixtures.succeed FileFixtures.succeed
              "movie.srt" "English" "French" 2 None (FileFixtures.fresh ())
              "Hi" () [Fixtures.cue 0 "Hi"] ["Hi"] ())
    as [(fe' & pre & new & Hrun & Hops & _ & _ & Hlen & _ & Hlast) _];
    [lia|done|done|done|done|done|done|].
  exists fe', pre, new. split; [exact Hrun|]. split; [exact Hops|].
  split; [exact Hlen|exact Hlast].
Defined.

Lemma X16_output_keeps_the_name_witness :
  let walk := [("out", ([] : list string), ["a.SRT"; "b_zh.srt"; "c.txt"])] in
  let result :=
    Worker.run FileFixtures.path_join FileFixtures.basename (λ _, true)
      FileFixtures.engine_ok FileFixtures.engine_ok "out" "srt" walk
      FileFixtures.idle in
  calls result = [("out/a.SRT", "out/a.SRT")]
  ∧ ∃ root dirs files file,
      (root, dirs, files) ∈ walk ∧ file ∈ files
      ∧ "out/a.SRT" = FileFixtures.path_join root file
      ∧ (root = "out" → "out/a.SRT" = "out/a.SRT").
Proof.
  intros walk result. split; [reflexivity|].
  destruct (X16_output_keeps_the_name FileFixtures.path_join
              FileFixtures.basename (λ _, true) FileFixtures.engine_ok
              FileFixtures.engine_ok "out" "srt" walk FileFixtures.idle
              "out/a.SRT" "out/a.SRT")
    as (root & dirs & files & file & Hentry & Hfile & _ & _ & Hp & _ & Hsame).
  - intros root dirs files file Hentry Hfile.
    apply list_elem_of_singleton in Hentry. injection Hentry as -> -> ->.
    repeat (apply elem_of_cons in Hfile as [->|Hfile]; [reflexivity|]).
    by apply elem_of_nil in Hfile.
  - reflexivity.
  - apply list_elem_of_singleton. reflexivity.
  - exists root, dirs, files, file. split; [exact Hentry|].
    split; [exact Hfile|]. split; [exact Hp|exact Hsame].
Defined.

Lemma X17_degraded_text_run_is_idempotent_witness :
  0 < 2 ∧ always_error Fixtures.failing
  ∧ ∃ out e1 e3,
      Engine.translate_plain_text Fixtures.failing true
        [" Hello " +:+ Py.NL; "  "; "World"] 2 (Fixtures.fresh ())
      = Some (out, e1)
      ∧ Engine.translate_plain_text Fixtures.failing true out 2
          (Fixtures.fresh ()) = Some (out, e3).
Proof.
  split; [lia|]. split; [exact failing_always_error|].
  apply (X17_degraded_text_run_is_idempotent Fixtures.failing true);
    [lia|exact failing_always_error].
Defined.

Lemma X13_done_means_written_witness :
  let result :=
    Files.translate_plain_text Fixtures.failing true
      (FileFixtures.readlines_ok ["Hi"]) FileFixtures.exists_always
      FileFixtures.splitext_srt FileFixtures.dirname_out
      FileFixtures.succeed FileFixtures.succeed
      "notes.txt" "English" "French" 2 (Some "out/notes.txt")
      (FileFixtures.fresh ()) in
  last (logged (engine_env result.2)) = Some "Done!"
  ∧ result.1 = Ok ()
  ∧ ∃ ops o, file_ops result.2 = ops ++ [o] ∧ is_write o = true.
Proof.
  intros result. split; [reflexivity|].
  exact (proj2 (X13_done_means_written Fixtures.failing true
                  FileFixtures.read_missing (FileFixtures.readlines_ok ["Hi"])
                  FileFixtures.parse_one FileFixtures.exists_always
                  FileFixtures.splitext_srt FileFixtures.dirname_out
                  FileFixtures.succeed FileFixtures.succeed
                  "notes.txt" "English" "French" 2 (Some "out/notes.txt")
                  (FileFixtures.fresh ()))
           eq_refl).
Defined.

Lemma X15_files_translated_in_order_witness :
  let walk :=
    [("in", ([] : list string), ["a.srt"; "b.txt"]);
     ("in/sub", ([] : list string), ["c.srt"])] in
  (∀ w : unit, (λ _ : unit, true) w = true)
  ∧ calls
      (Worker.run FileFixtures.path_join FileFixtures.basename (λ _, true)
         FileFixtures.engine_raises FileFixtures.engine_raises "out" "srt"
         walk FileFixtures.idle)
    = [("in/a.srt", "out/a.srt"); ("in/sub/c.srt", "out/c.srt")].
Proof.
  intros walk. split; [done|].
  exact (proj1 (proj2 (X15_files_translated_in_order FileFixtures.path_join
                         FileFixtures.basename (λ _, true)
                         FileFixtures.engine_raises
                         FileFixtures.engine_raises "out" "srt" walk
                         FileFixtures.idle)
                  (λ _, eq_refl))).
Defined.
